(** * RobotGPSTransmitterV2: the websocket test server

    A shallow embedding of [websocket-test-server.py]: the per-connection
    coroutine [handle_client], the two globals it shares between
    connections ([connected_clients] and [message_count]) and the Python
    operations it applies to decoded JSON values.

    The server runs on a single asyncio event loop, so a coroutine is
    only interrupted where it awaits: at [async for message in websocket]
    and at [await websocket.send(...)].  The code between two awaits runs
    atomically; it is modelled as one transition of the server state.
    [handle_client] is therefore cut at its awaits into [enter] (up to
    the first await), [iteration] (one turn of the loop, up to the send),
    [sent] (after the send) and [leave] (the [except] and [finally]
    clauses).

    [json.loads], [datetime.now()] and [args.respond] come from outside
    the function; they are parameters of the model, and so is what
    [json.dumps] and [print] do with a decoded value that they cannot
    write. *)

From Stdlib Require Import Ascii Floats.SpecFloat.
From stdpp Require Import gmap strings list sorting pretty.

#[export] Set Warnings "-clear-no-such-hyp".

(** ** Python values *)

(** A Python [str] is a [string], read as a sequence of characters; a
    [bytes] object is a list of bytes. *)
Abbreviation str := string (only parsing).
Abbreviation bytes := (list Byte.byte) (only parsing).

(** What [json.loads] returns: [dict], [list], [str], [int], [float],
    [bool] or [None].  A [dict] keeps its keys in insertion order; it is
    an association list, read from the front. *)
#[warnings="-register-all"]
Inductive json : Type :=
| JNull
| JBool (b : bool)
| JInt (n : Z)
| JFloat (f : spec_float)
| JStr (s : str)
| JArr (items : list json)
| JObj (fields : list (str * json)).

(** A frame delivered by the websocket: text frames arrive as [str],
    binary frames as [bytes]. *)
Inductive frame : Type :=
| Text (s : str)
| Binary (b : bytes).

(** The exceptions that occur in the handler.  All of them derive from
    [Exception] except [CancelledError], which derives from
    [BaseException] only. *)
Inductive exn : Type :=
| JSONDecodeError
| UnicodeDecodeError
| RecursionError
| TypeError
| KeyError
| AttributeError
| UnicodeEncodeError
| ConnectionClosed (code : Z) (reason : str)
| CancelledError.

Definition is_Exception (e : exn) : bool :=
  match e with
  | CancelledError => false
  | _ => true
  end.

(** The result of evaluating a Python expression. *)
Inductive outcome (A : Type) : Type :=
| Return (a : A)
| Raise (e : exn).
Arguments Return {A} a.
Arguments Raise {A} e.

(** ** Operations on decoded values *)

Module Py.

(** [d[key]] on a dict, as an option. *)
Fixpoint lookup (key : str) (fields : list (str * json)) : option json :=
  match fields with
  | [] => None
  | (k, v) :: rest => if String.eqb k key then Some v else lookup key rest
  end.

(** [key in d] on a dict. *)
Definition has_key (key : str) (fields : list (str * json)) : bool :=
  match lookup key fields with Some _ => true | None => false end.

(** [v == s] for a string literal [s]: only a [str] equals a [str]. *)
Definition eq_str (v : json) (s : str) : bool :=
  match v with
  | JStr t => String.eqb t s
  | _ => false
  end.

(** [needle in hay] on two strings: the substring test. *)
Fixpoint substring_of (needle hay : str) : bool :=
  String.prefix needle hay ||
  match hay with
  | EmptyString => false
  | String _ rest => substring_of needle rest
  end.

(** [key in v].  On a dict it looks for the key, on a list for an equal
    element, on a string for a substring; the other values are not
    containers and the test raises [TypeError]. *)
Definition contains (key : str) (v : json) : outcome bool :=
  match v with
  | JObj fields => Return (has_key key fields)
  | JArr items => Return (existsb (fun x => eq_str x key) items)
  | JStr s => Return (substring_of key s)
  | JNull | JBool _ | JInt _ | JFloat _ => Raise TypeError
  end.

(** [v[key]] with a string key: defined on a dict only.  Lists and
    strings take integer indices, the remaining values are not
    subscriptable. *)
Definition getitem (v : json) (key : str) : outcome json :=
  match v with
  | JObj fields =>
      match lookup key fields with
      | Some x => Return x
      | None => Raise KeyError
      end
  | _ => Raise TypeError
  end.

(** [v.get(key, fallback)]: a method of dicts only. *)
Definition get (v : json) (key : str) (fallback : json) : outcome json :=
  match v with
  | JObj fields => Return (default fallback (lookup key fields))
  | _ => Raise AttributeError
  end.

End Py.

(** [message[:n]], [len(message)] and [a + b] on frames.  Slicing and
    [len] work on both kinds; [+] joins two values of the same kind and
    raises [TypeError] when a [bytes] meets a [str]. *)
Module Frame.

Definition slice_to (n : nat) (m : frame) : frame :=
  match m with
  | Text s => Text (String.substring 0 n s)
  | Binary b => Binary (take n b)
  end.

Definition len (m : frame) : nat :=
  match m with
  | Text s => String.length s
  | Binary b => length b
  end.

Definition add (a b : frame) : outcome frame :=
  match a, b with
  | Text x, Text y => Return (Text (x +:+ y))
  | Binary x, Binary y => Return (Binary (x ++ y))
  | _, _ => Raise TypeError
  end.

End Frame.

(** ** Time *)

(** A naive [datetime], as [datetime.now()] returns it. *)
Record datetime : Type := {
  year : N; month : N; day : N;
  hour : N; minute : N; second : N;
  microsecond : N
}.

Definition digit (n : N) : ascii := ascii_of_N (48 + n mod 10).

Definition digits2 (n : N) : str :=
  String (digit (n / 10)) (String (digit n) EmptyString).

Definition digits4 (n : N) : str :=
  String (digit (n / 1000)) (String (digit (n / 100)) (digits2 n)).

Definition digits6 (n : N) : str :=
  String (digit (n / 100000)) (String (digit (n / 10000)) (digits4 n)).

(** [t.isoformat()]: [YYYY-MM-DDTHH:MM:SS], followed by [.ffffff] when
    the microsecond field is not zero. *)
Definition isoformat (t : datetime) : str :=
  digits4 (year t) +:+ "-" +:+ digits2 (month t) +:+ "-" +:+ digits2 (day t)
  +:+ "T" +:+ digits2 (hour t) +:+ ":" +:+ digits2 (minute t)
  +:+ ":" +:+ digits2 (second t)
  +:+ (if (microsecond t =? 0)%N then EmptyString else "." +:+ digits6 (microsecond t)).

(** The shape of an ISO-8601 local date and time with an optional
    fraction of six digits. *)
Definition is_digit (c : ascii) : bool :=
  (48 <=? N_of_ascii c)%N && (N_of_ascii c <=? 57)%N.

Fixpoint matches_pattern (pattern : list (option ascii)) (s : str) : bool :=
  match pattern, s with
  | [], EmptyString => true
  | None :: p, String c rest => is_digit c && matches_pattern p rest
  | Some x :: p, String c rest => Ascii.eqb x c && matches_pattern p rest
  | _, _ => false
  end.

Definition iso_seconds : list (option ascii) :=
  [None; None; None; None; Some "-"%char; None; None; Some "-"%char;
   None; None; Some "T"%char; None; None; Some ":"%char; None; None;
   Some ":"%char; None; None].

Definition iso_micros : list (option ascii) :=
  iso_seconds ++ [Some "."%char; None; None; None; None; None; None].

Definition is_iso8601 (s : str) : bool :=
  matches_pattern iso_seconds s || matches_pattern iso_micros s.

(** ** The server state *)

(** A connection object, known by its identity. *)
Abbreviation websocket := nat (only parsing).

(** What the server prints, one constructor per [print] call of
    [handle_client], holding the values that the call formats. *)
Inductive line : Type :=
| NewConnection (t : datetime) (remote_address : str * N) (client_id : str)
| Waiting (client_id : str)
| MessageHeader (t : datetime) (number : nat) (client_id : str)
| Dump (data : json)
| ExtractedHeader
| Topic (v : json)
| Latitude (v : json)
| Longitude (v : json)
| Altitude (v : json)
| RawHeader (t : datetime) (number : nat) (client_id : str)
| Raw (shown : frame)
| ResponseSent (client_id : str)
| Closed (t : datetime) (client_id : str) (code : Z) (reason : str)
| Failed (t : datetime) (client_id : str) (e : exn)
| Disconnected (client_id : str) (remaining : nat).

(** What the server does to the outside: it prints a line, or calls
    [websocket.send(json.dumps(response))]. *)
Inductive effect : Type :=
| Print (l : line)
| Send (ws : websocket) (response : json).

(** Where a running handler is suspended. *)
Inductive phase : Type :=
| Reading   (* in [async for message in websocket] *)
| Sending.  (* in [await websocket.send(...)] *)

(** The locals of a suspended [handle_client]. *)
Record handler : Type := {
  client_id : str;
  at_await : phase
}.

Record server : Type := {
  connected_clients : gset nat;
  message_count : nat;
  ticks : nat;                  (* calls of [datetime.now()] so far *)
  effects : list effect;        (* oldest first *)
  handlers : gmap nat handler   (* the running [handle_client] tasks *)
}.

Definition initial : server :=
  {| connected_clients := ∅; message_count := 0; ticks := 0;
     effects := []; handlers := ∅ |}.

(** ** Statements: state passing with exceptions *)

(** A block of statements runs from a state and ends normally or by an
    exception; what it did to the state stays done in both cases. *)
Definition M (A : Type) : Type := server → outcome A * server.

#[global] Instance M_ret : MRet M := λ A a s, (Return a, s).

#[global] Instance M_bind : MBind M := λ A B k m s,
  match m s with
  | (Return a, s') => k a s'
  | (Raise e, s') => (Raise e, s')
  end.

(** The value of an expression that reads no state. *)
Definition eval {A} (r : outcome A) : M A := λ s, (r, s).

Definition raise {A} (e : exn) : M A := eval (Raise e).

(** [try: body / except ...: ...], where [clauses e] is the [except]
    clause that matches [e], if there is one. *)
Definition try_except {A} (body : M A) (clauses : exn → option (M A)) : M A :=
  λ s,
    match body s with
    | (Return a, s') => (Return a, s')
    | (Raise e, s') =>
        match clauses e with
        | Some clause => clause s'
        | None => (Raise e, s')
        end
    end.

(** [try: body / finally: final]. *)
Definition try_finally {A} (body : M A) (final : M unit) : M A :=
  λ s,
    match body s with
    | (r, s') =>
        match final s' with
        | (Return _, s'') => (r, s'')
        | (Raise e, s'') => (Raise e, s'')
        end
    end.

(** [a and b] on two tests. *)
Definition and_then (a b : M bool) : M bool :=
  a ≫= λ x : bool, if x then b else mret false.

(** The state after some more effects. *)
Definition emit (fx : list effect) (s : server) : server :=
  {| connected_clients := connected_clients s;
     message_count := message_count s;
     ticks := ticks s;
     effects := effects s ++ fx;
     handlers := handlers s |}.

(** A [print] of text that the standard output can encode: the fixed
    texts, the labels, the clock, and the texts that arrived as UTF-8
    (a text frame, a close reason).  The output is taken to encode
    every character, as a UTF-8 terminal does; the prints of decoded
    values, which can hold what no encoding writes, are [print_value]
    and [dump] below. *)
Definition print (l : line) : M unit := λ s, (Return (), emit [Print l] s).

(** The call [websocket.send(json.dumps(response))], up to its await. *)
Definition send (ws : websocket) (response : json) : M unit := λ s,
  (Return (), emit [Send ws response] s).

(** The state after [message_count += 1]. *)
Definition counted (s : server) : server :=
  {| connected_clients := connected_clients s;
     message_count := message_count s + 1;
     ticks := ticks s;
     effects := effects s;
     handlers := handlers s |}.

Definition count_message : M unit := λ s, (Return (), counted s).

Definition read_message_count : M nat := λ s, (Return (message_count s), s).

(** [len(connected_clients)] *)
Definition len_connected_clients : M nat := λ s,
  (Return (size (connected_clients s)), s).

(** [connected_clients.add(ws)] *)
Definition add_client (ws : websocket) : M unit := λ s,
  (Return (),
   {| connected_clients := {[ws]} ∪ connected_clients s;
      message_count := message_count s;
      ticks := ticks s;
      effects := effects s;
      handlers := handlers s |}).

(** [connected_clients.remove(ws)], which raises [KeyError] when [ws] is
    not a member. *)
Definition remove_client (ws : websocket) : M unit := λ s,
  if decide (ws ∈ connected_clients s) then
    (Return (),
     {| connected_clients := connected_clients s ∖ {[ws]};
        message_count := message_count s;
        ticks := ticks s;
        effects := effects s;
        handlers := handlers s |})
  else (Raise KeyError, s).

(** ** [handle_client] *)

(** The ways in which [print] fails on the text of a decoded value:
    a string that holds a lone surrogate, which [json.loads] accepts
    as the escape of one and no encoding of the output can write; a
    value nested too deep for [repr]. *)
Inductive unwritable :=
| LoneSurrogate
| TooDeep.

(** The exception that [print] then raises. *)
Definition raised (u : unwritable) : exn :=
  match u with
  | LoneSurrogate => UnicodeEncodeError
  | TooDeep => RecursionError
  end.

Section handle_client.

(** [json.loads]: the decoded value, or the exception it raises
    ([JSONDecodeError] for a text that is not JSON). *)
Variable json_loads : frame → outcome json.

(** The successive readings of [datetime.now()]. *)
Variable clock : nat → datetime.

(** [args.respond], the [--respond] flag. *)
Variable args_respond : bool.

(** Whether [json.dumps(data, indent=2)] returns.  It raises
    [RecursionError] instead on a value nested deeper than the encoder
    can walk, though [json.loads] built it.  The text it returns is in
    ASCII, which [print] always writes. *)
Variable dumpable : json → bool.

(** What formatting a decoded value into an f-string and printing the
    result does, when the line is not written.  A [string] has no
    surrogates, so this parameter tells which of the decoded strings
    hold one. *)
Variable print_error : json → option unwritable.

(** The state after one more reading of the clock. *)
Definition ticked (s : server) : server :=
  {| connected_clients := connected_clients s;
     message_count := message_count s;
     ticks := ticks s + 1;
     effects := effects s;
     handlers := handlers s |}.

Definition now : M datetime := λ s, (Return (clock (ticks s)), ticked s).

(** Line 18: [f"Client-{len(connected_clients) + 1}"]. *)
Definition label (registered : nat) : str :=
  "Client-" +:+ pretty (registered + 1).

(** Lines 18-24: from the call of [handle_client] to the first await.
    Returns [client_id]. *)
Definition enter (ws : websocket) (remote_address : str * N) : M str :=
  n ← len_connected_clients;
  let client_id := label n in
  t ← now;
  print (NewConnection t remote_address client_id);;
  add_client ws;;
  print (Waiting client_id);;
  mret client_id.

(** Line 32: [print(json.dumps(data, indent=2))]. *)
Definition dump (data : json) : M unit :=
  if dumpable data then print (Dump data) else raise RecursionError.

(** The [print] of an f-string that formats the decoded value [v]:
    lines 39-43. *)
Definition print_value (l : line) (v : json) : M unit :=
  match print_error v with
  | None => print l
  | Some u => raise (raised u)
  end.

(** Lines 35-43: the GPS data of a decoded message. *)
Definition extract_gps (data : json) : M unit :=
  matches ← and_then (eval (Py.contains "op" data))
              (and_then (op ← eval (Py.getitem data "op");
                         mret (Py.eq_str op "publish"))
                        (eval (Py.contains "msg" data)));
  if matches : bool then
    msg ← eval (Py.getitem data "msg");
    located ← and_then (eval (Py.contains "latitude" msg))
                       (eval (Py.contains "longitude" msg));
    if located : bool then
      print ExtractedHeader;;
      topic ← eval (Py.get data "topic" (JStr "N/A"));
      print_value (Topic topic) topic;;
      latitude ← eval (Py.getitem msg "latitude");
      print_value (Latitude latitude) latitude;;
      longitude ← eval (Py.getitem msg "longitude");
      print_value (Longitude longitude) longitude;;
      high ← eval (Py.contains "altitude" msg);
      if high : bool then
        altitude ← eval (Py.getitem msg "altitude");
        print_value (Altitude altitude) altitude
      else mret ()
    else mret ()
  else mret ().

(** Line 47: [message[:200] + ('...' if len(message) > 200 else '')]. *)
Definition raw_display (message : frame) : outcome frame :=
  Frame.add (Frame.slice_to 200 message)
            (Text (if (200 <? Frame.len message)%nat
                   then "..." else EmptyString)).

(** Lines 45-47: the [except json.JSONDecodeError] clause. *)
Definition show_raw (client_id : str) (message : frame) : M unit :=
  t ← now;
  n ← read_message_count;
  print (RawHeader t n client_id);;
  shown ← eval (raw_display message);
  print (Raw shown).

(** Lines 31-43: show a decoded message. *)
Definition show_json (client_id : str) (data : json) : M unit :=
  t ← now;
  n ← read_message_count;
  print (MessageHeader t n client_id);;
  dump data;;
  extract_gps data.

(** Lines 29-47: decode and show one message. *)
Definition show (client_id : str) (message : frame) : M unit :=
  try_except
    (data ← eval (json_loads message);
     show_json client_id data)
    (λ e, match e with
          | JSONDecodeError => Some (show_raw client_id message)
          | _ => None
          end).

(** Lines 51-55: the acknowledgment. *)
Definition response (number : nat) (t : datetime) : json :=
  JObj [("status", JStr "received");
        ("message_id", JInt (Z.of_nat number));
        ("timestamp", JStr (isoformat t))].

(** Lines 28-56: what is done with a counted message, up to the next
    await.  Returns where the handler waits next. *)
Definition process (ws : websocket) (client_id : str) (message : frame)
  : M phase :=
  show client_id message;;
  if args_respond then
    n ← read_message_count;
    t ← now;
    send ws (response n t);;
    mret Sending
  else mret Reading.

(** Lines 26-56: one turn of the loop, from the arrival of [message] to
    the next await. *)
Definition iteration (ws : websocket) (client_id : str) (message : frame)
  : M phase :=
  count_message;;
  process ws client_id message.

(** Line 57, then back to the head of the loop. *)
Definition sent (client_id : str) : M phase :=
  print (ResponseSent client_id);;
  mret Reading.

(** Lines 59-62: the [except] clauses, applied to the way the body of
    the [try] statement ended. *)
Definition excepted (client_id : str) (body : outcome unit) : M unit :=
  match body with
  | Return _ => mret ()
  | Raise (ConnectionClosed code reason) =>
      t ← now;
      print (Closed t client_id code reason)
  | Raise e =>
      if is_Exception e then
        t ← now;
        print (Failed t client_id e)
      else raise e
  end.

(** Lines 64-65: the [finally] clause. *)
Definition cleanup (ws : websocket) (client_id : str) : M unit :=
  remove_client ws;;
  n ← len_connected_clients;
  print (Disconnected client_id n).

(** Lines 59-65: how the [try] statement is left, given how its body
    ended. *)
Definition leave (ws : websocket) (client_id : str) (body : outcome unit)
  : M unit :=
  try_finally (excepted client_id body) (cleanup ws client_id).

End handle_client.

(** ** The event loop *)

(** What wakes a handler up.  [websockets.serve] starts one
    [handle_client] task per accepted connection; a suspended task
    resumes when its await returns or raises. *)
Inductive event : Type :=
| Connect (ws : websocket) (remote_address : str * N)
| Receive (ws : websocket) (message : frame)
| Exhausted (ws : websocket)            (* the iteration is over *)
| ReadRaises (ws : websocket) (e : exn) (* the iteration raises *)
| SendReturns (ws : websocket)
| SendRaises (ws : websocket) (e : exn).



Definition set_handlers (f : gmap nat handler → gmap nat handler) (s : server)
  : server :=
  {| connected_clients := connected_clients s;
     message_count := message_count s;
     ticks := ticks s;
     effects := effects s;
     handlers := f (handlers s) |}.

Section Loop.

Variable json_loads : frame → outcome json.
Variable clock : nat → datetime.
Variable args_respond : bool.
Variable dumpable : json → bool.
Variable print_error : json → option unwritable.

(** The task leaves the [try] statement and ends. *)
Definition finish (ws : websocket) (h : handler) (body : outcome unit)
    (s : server) : server :=
  set_handlers (delete ws) (leave clock ws (client_id h) body s).2.

(** The task runs [block] inside the [try] statement, up to its next
    await or to its end. *)
Definition resume (ws : websocket) (h : handler) (block : M phase)
    (s : server) : server :=
  match block s with
  | (Return p, s') =>
      set_handlers <[ws := {| client_id := client_id h; at_await := p |}]> s'
  | (Raise e, s') => finish ws h (Raise e) s'
  end.

(** The handler of [ws], when it is suspended at [p]. *)
Definition waiting (ws : websocket) (p : phase) (s : server)
  : option handler :=
  match handlers s !! ws with
  | Some h =>
      match at_await h, p with
      | Reading, Reading | Sending, Sending => Some h
      | _, _ => None
      end
  | None => None
  end.

(** One transition; [None] when the event cannot happen in [s]. *)
Definition step (ev : event) (s : server) : option server :=
  match ev with
  | Connect ws remote_address =>
      match handlers s !! ws with
      | Some _ => None
      | None =>
          match enter clock ws remote_address s with
          | (Return id, s') =>
              Some (set_handlers
                      <[ws := {| client_id := id; at_await := Reading |}]> s')
          | (Raise _, s') => Some s'
          end
      end
  | Receive ws message =>
      match waiting ws Reading s with
      | Some h =>
          Some (resume ws h
                  (iteration json_loads clock args_respond
                             dumpable print_error
                             ws (client_id h) message) s)
      | None => None
      end
  | Exhausted ws =>
      match waiting ws Reading s with
      | Some h => Some (finish ws h (Return ()) s)
      | None => None
      end
  | ReadRaises ws e =>
      match waiting ws Reading s with
      | Some h => Some (finish ws h (Raise e) s)
      | None => None
      end
  | SendReturns ws =>
      match waiting ws Sending s with
      | Some h => Some (resume ws h (sent (client_id h)) s)
      | None => None
      end
  | SendRaises ws e =>
      match waiting ws Sending s with
      | Some h => Some (finish ws h (Raise e) s)
      | None => None
      end
  end.

Fixpoint run (evs : list event) (s : server) : option server :=
  match evs with
  | [] => Some s
  | ev :: rest =>
      match step ev s with
      | Some s' => run rest s'
      | None => None
      end
  end.

Definition is_receive (ev : event) : bool :=
  match ev with
  | Receive _ _ => true
  | _ => false
  end.

(** The values of [message_count] right after each received message of
    a run: the numbers given to the messages, in order of arrival. *)
Fixpoint numbers (evs : list event) (s : server) : list nat :=
  match evs with
  | [] => []
  | ev :: rest =>
      match step ev s with
      | Some s' =>
          (if is_receive ev then [message_count s'] else [])
            ++ numbers rest s'
      | None => []
      end
  end.

(** The values of [message_count] after each event of a run. *)
Fixpoint counts (evs : list event) (s : server) : list nat :=
  match evs with
  | [] => []
  | ev :: rest =>
      match step ev s with
      | Some s' => message_count s' :: counts rest s'
      | None => []
      end
  end.

End Loop.

(** The lines printed and the acknowledgments passed to [send] between
    two states. *)
Definition printed (fx : list effect) : list line :=
  omap (λ x, match x with Print l => Some l | Send _ _ => None end) fx.

Definition acknowledgments (ws : websocket) (fx : list effect) : list json :=
  omap (λ x, match x with
             | Send ws' r => if decide (ws' = ws) then Some r else None
             | Print _ => None
             end) fx.

(** ** A concrete environment

    A decoder that knows the messages used in the examples below and
    takes every other payload for no JSON, a clock that advances by one
    second per reading, and a few runs of the server. *)
Module Sample.

(** [s] between double quotes (the character of code 34). *)
Definition quoted (s : str) : str :=
  String "034" (s +:+ String "034" EmptyString).

(** [{"op":"publish","topic":"/gps","msg":{"latitude":1.23,"longitude":4.56}}] *)
Definition gps_text : str :=
  "{" +:+ quoted "op" +:+ ":" +:+ quoted "publish" +:+ ","
  +:+ quoted "topic" +:+ ":" +:+ quoted "/gps" +:+ ","
  +:+ quoted "msg" +:+ ":{" +:+ quoted "latitude" +:+ ":1.23,"
  +:+ quoted "longitude" +:+ ":4.56}}".

(** The floats 1.23 and 4.56, as mantissa and exponent. *)
Definition gps_data : json :=
  JObj [("op", JStr "publish"); ("topic", JStr "/gps");
        ("msg", JObj [("latitude",
                       JFloat (S754_finite false 5539427541665710 (-52)));
                      ("longitude",
                       JFloat (S754_finite false 5134103575202365 (-50)))])].

(** [{"op":"publish","topic":"/gps","msg":{"latitude":1.0,"longitude":2.0,"altitude":50}}] *)
Definition climb_text : str :=
  "{" +:+ quoted "op" +:+ ":" +:+ quoted "publish" +:+ ","
  +:+ quoted "topic" +:+ ":" +:+ quoted "/gps" +:+ ","
  +:+ quoted "msg" +:+ ":{" +:+ quoted "latitude" +:+ ":1.0,"
  +:+ quoted "longitude" +:+ ":2.0," +:+ quoted "altitude" +:+ ":50}}".

Definition climb_data : json :=
  JObj [("op", JStr "publish"); ("topic", JStr "/gps");
        ("msg", JObj [("latitude",
                       JFloat (S754_finite false 4503599627370496 (-52)));
                      ("longitude",
                       JFloat (S754_finite false 4503599627370496 (-51)));
                      ("altitude", JInt 50)])].

(** [{"op":"publish","msg":5}] *)
Definition scalar_text : str :=
  "{" +:+ quoted "op" +:+ ":" +:+ quoted "publish" +:+ ","
  +:+ quoted "msg" +:+ ":5}".

Definition scalar_data : json :=
  JObj [("op", JStr "publish"); ("msg", JInt 5)].

(** [{"op":"publish","topic":"/gps","msg":null}] *)
Definition null_text : str :=
  "{" +:+ quoted "op" +:+ ":" +:+ quoted "publish" +:+ ","
  +:+ quoted "topic" +:+ ":" +:+ quoted "/gps" +:+ ","
  +:+ quoted "msg" +:+ ":null}".

Definition null_data : json :=
  JObj [("op", JStr "publish"); ("topic", JStr "/gps"); ("msg", JNull)].

(** The lone surrogate U+D800 of the sample.  A [string] has no such
    character; the sample marks it by the three bytes of its
    generalised UTF-8 form (237, 160, 128), which no UTF-8 text holds
    and [print_error] below recognises. *)
Definition surrogate : str :=
  String "237" (String "160" (String "128" EmptyString)).

(** [{"op":"publish","topic":"/gps","msg":{"latitude":"\ud800","longitude":4.56}}],
    in ASCII: the surrogate is written as its escape. *)
Definition surrogate_text : str :=
  "{" +:+ quoted "op" +:+ ":" +:+ quoted "publish" +:+ ","
  +:+ quoted "topic" +:+ ":" +:+ quoted "/gps" +:+ ","
  +:+ quoted "msg" +:+ ":{" +:+ quoted "latitude" +:+ ":"
  +:+ quoted "\ud800" +:+ "," +:+ quoted "longitude" +:+ ":4.56}}".

Definition surrogate_data : json :=
  JObj [("op", JStr "publish"); ("topic", JStr "/gps");
        ("msg", JObj [("latitude", JStr surrogate);
                      ("longitude",
                       JFloat (S754_finite false 5134103575202365 (-50)))])].

Definition known : list (str * json) :=
  [(gps_text, gps_data); (climb_text, climb_data);
   (scalar_text, scalar_data); (null_text, null_data);
   (surrogate_text, surrogate_data)].

Definition loads_text (s : str) : outcome json :=
  match Py.lookup s known with
  | Some data => Return data
  | None => Raise JSONDecodeError
  end.

(** The bytes 192, 193 and 245 to 255 occur in no UTF-8 text. *)
Definition never_in_utf8 (b : Byte.byte) : bool :=
  let n := Byte.to_N b in
  ((n =? 192) || (n =? 193) || (245 <=? n))%N.

(** [json.loads] decodes a [bytes] message as UTF-8 before it parses
    it, and raises [UnicodeDecodeError] when it cannot. *)
Definition loads (message : frame) : outcome json :=
  match message with
  | Text s => loads_text s
  | Binary b =>
      if existsb never_in_utf8 b then Raise UnicodeDecodeError
      else loads_text (String.string_of_list_byte b)
  end.

(** Every sample value is within the reach of [json.dumps]. *)
Definition dumpable (data : json) : bool := true.

(** The output writes every value but a string that holds the lone
    surrogate. *)
Definition print_error (v : json) : option unwritable :=
  match v with
  | JStr s =>
      if Py.substring_of surrogate s then Some LoneSurrogate else None
  | _ => None
  end.

Definition clock (n : nat) : datetime :=
  {| year := 2024; month := 5; day := 17;
     hour := 12; minute := 30; second := N.of_nat n mod 60;
     microsecond := 250 |}.

(** The bytes of [hello world]. *)
Definition hello : list Byte.byte := String.list_byte_of_string "hello world".

(** The single byte 255, which is no UTF-8 text. *)
Definition stray : list Byte.byte := [Byte.xff].

Definition robot : str * N := ("192.168.1.20", 51000%N).
Definition rover : str * N := ("192.168.1.21", 51002%N).

(** The state after a run from the start. *)
Definition after (respond : bool) (evs : list event) : server :=
  default initial (run loads clock respond dumpable print_error evs initial).

(** Two robots at once, with acknowledgments. *)
Definition busy : list event :=
  [Connect 1 robot; Connect 2 rover;
   Receive 1 (Text gps_text); Receive 2 (Text "hello world");
   SendReturns 1; Receive 1 (Text climb_text);
   SendReturns 2; Exhausted 2].

End Sample.

(** ** Vocabulary of the properties *)

(** The state after a block that printed [lines] and read the clock
    [reads] times, and did nothing else. *)
Definition printing (lines : list line) (reads : nat) (s : server) : server :=
  {| connected_clients := connected_clients s;
     message_count := message_count s;
     ticks := ticks s + reads;
     effects := effects s ++ (Print <$> lines);
     handlers := handlers s |}.

(** A block that only prints and reads the clock. *)
Definition only_prints {A} (m : M A) : Prop :=
  ∀ s, ∃ lines reads, (m s).2 = printing lines reads s.

(** A block that leaves the registry and the tasks as they are. *)
Definition steady {A} (m : M A) : Prop :=
  ∀ s, connected_clients (m s).2 = connected_clients s
       ∧ handlers (m s).2 = handlers s.

(** A block that leaves the counter as it is. *)
Definition uncounted {A} (m : M A) : Prop :=
  ∀ s, message_count (m s).2 = message_count s.

(** The registry holds exactly the connections whose handler runs. *)
Definition consistent (s : server) : Prop :=
  dom (handlers s) = connected_clients s.

(** The state after a handler for [ws] left its [try] statement, having
    printed [lines] and read the clock [reads] times on the way out. *)
Definition departed (ws : websocket) (lines : list line) (reads : nat)
    (s : server) : server :=
  {| connected_clients := connected_clients s ∖ {[ws]};
     message_count := message_count s;
     ticks := ticks s + reads;
     effects := effects s ++ (Print <$> lines);
     handlers := handlers s |}.

(** The connection an event is about. *)
Definition subject (ev : event) : websocket :=
  match ev with
  | Connect ws _ | Receive ws _ | Exhausted ws | ReadRaises ws _
  | SendReturns ws | SendRaises ws _ => ws
  end.

(** The messages received in a run. *)
Fixpoint received (evs : list event) : nat :=
  match evs with
  | [] => 0
  | ev :: rest => (if is_receive ev then 1 else 0) + received rest
  end.


(** Every running handler waits for a message. *)
Definition all_reading (s : server) : Prop :=
  ∀ ws h, handlers s !! ws = Some h → at_await h = Reading.

(** A block that does not raise [e]. *)
Definition never_raises {A} (e : exn) (m : M A) : Prop :=
  ∀ s, (m s).1 ≠ Raise e.

(** ** The identifiers that were acknowledged *)

(** [response["message_id"]] of an acknowledgment. *)
Definition message_id_of (response : json) : option Z :=
  match response with
  | JObj fields =>
      match Py.lookup "message_id" fields with
      | Some (JInt n) => Some n
      | _ => None
      end
  | _ => None
  end.

(** The identifiers passed to [send], on any connection, oldest first. *)
Definition ids_sent (fx : list effect) : list Z :=
  omap (λ x, match x with
             | Send _ r => message_id_of r
             | Print _ => None
             end) fx.

(** ** [print_server_info], [main] and the script *)

Module Banner.

(** What the calls into [socket] raise; [KeyboardInterrupt] is the one
    that does not derive from [Exception]. *)
Inductive error : Type :=
| OSError (message : str)
| gaierror (message : str)
| KeyboardInterrupt.

Definition is_Exception (e : error) : bool :=
  match e with
  | KeyboardInterrupt => false
  | _ => true
  end.

Inductive tried (A : Type) : Type :=
| Got (a : A)
| Raised (e : error).
Arguments Got {A} a.
Arguments Raised {A} e.

(** The network as [print_server_info] meets it. *)
Record network : Type := {
  (* [socket.gethostname()] *)
  gethostname : tried str;
  (* the [info[4][0]] of the entries of
     [socket.getaddrinfo(hostname, None)], in order *)
  getaddrinfo : str → tried (list str);
  (* the exception of [socket.socket(AF_INET, SOCK_DGRAM)], if any *)
  socket_socket : option error;
  (* [s.connect(('8.8.8.8', 80))], then [s.getsockname()[0]] *)
  getsockname : tried str
}.

(** One constructor per [print] call of [print_server_info]. *)
Inductive line : Type :=
| Title
| ListeningOn (port : Z)
| AddressesHeading
| Hostname (hostname : str)
| Url (addr : str) (port : Z)
| Undetermined
| NetworkError (e : error)
| PressCtrlC
| Rule.

(** Line 86: [addr != '127.0.0.1' and not addr.startswith('::') and
    ':' not in addr]. *)
Definition wanted (addr : str) : bool :=
  negb (String.eqb addr "127.0.0.1")
  && negb (String.prefix "::" addr)
  && negb (Py.substring_of ":" addr).

(** Lines 80-89: the addresses kept from [getaddrinfo]; whatever it
    raises is dropped by the bare [except]. *)
Definition collect (net : network) (hostname : str) : list str :=
  match getaddrinfo net hostname with
  | Got infos => List.filter wanted infos
  | Raised _ => []
  end.

(** Lines 93-101: the address of the socket that would reach 8.8.8.8.
    Creating the socket is outside the inner [try]; what [connect] or
    [getsockname] raise is dropped. *)
Definition probe (net : network) : tried (list str) :=
  match socket_socket net with
  | Some e => Raised e
  | None =>
      Got match getsockname net with
          | Got addr => [addr]
          | Raised _ => []
          end
  end.

(** [sorted(set(addresses))] *)
Definition sorted_set (addresses : list str) : list str :=
  merge_sort String.le (remove_dups addresses).

(** Lines 104-108. *)
Definition listing (addresses : list str) (port : Z) : list line :=
  match addresses with
  | [] => [Undetermined]
  | _ => (λ addr, Url addr port) <$> sorted_set addresses
  end.

(** Lines 76-108, the body of the [try] statement: the lines it prints
    and the exception that leaves it, if any. *)
Definition network_info (net : network) (port : Z) : list line * option error :=
  match gethostname net with
  | Raised e => ([], Some e)
  | Got hostname =>
      match (match collect net hostname with
             | [] => probe net
             | found => Got found
             end) with
      | Raised e => ([Hostname hostname], Some e)
      | Got addresses => (Hostname hostname :: listing addresses port, None)
      end
  end.

(** Lines 67-113.  [host] is a parameter of the function that its body
    does not use. *)
Definition print_server_info (net : network) (host : str) (port : Z)
  : list line * option error :=
  let heading := [Title; ListeningOn port; AddressesHeading] in
  match network_info net port with
  | (lines, None) => (heading ++ lines ++ [PressCtrlC; Rule], None)
  | (lines, Some e) =>
      if is_Exception e
      then (heading ++ lines ++ [NetworkError e; PressCtrlC; Rule], None)
      else (heading ++ lines, Some e)
  end.

(** The addresses that a banner lists, top down. *)
Definition listed (lines : list line) : list str :=
  omap (λ l, match l with Url addr _ => Some addr | _ => None end) lines.

(** What the [print] calls of the script write: the lines of the
    banner, then the lines of lines 139-143. *)
Inductive report : Type :=
| Info (l : line)
| Interrupted
| Error (e : error)
| ShutDown.

(** Lines 115-124: [asyncio.run(main())] never returns; [served] is the
    exception by which [websockets.serve] or the wait on [stop] ends,
    when the banner did not already end with one. *)
Definition main (net : network) (host : str) (port : Z) (served : error)
  : list line * error :=
  match print_server_info net host port with
  | (lines, Some e) => (lines, e)
  | (lines, None) => (lines, served)
  end.

(** Lines 128-133: what [parser.parse_args()] makes of the command
    line.  It returns the values of [--host], [--port] and
    [--respond]; or, after argparse has written its help ([-h]) or its
    usage and an error (an option it does not know, a [--port] that is
    no integer), it raises [SystemExit] with a status. *)
Inductive parsed : Type :=
| Namespace (host : str) (port : Z) (respond : bool)
| SystemExit (status : Z).

(** Lines 126-143: the lines that the script prints, and the status of
    the [SystemExit] that ends it, if one does.  [parse_args] is called
    before the [try] statement, so its [SystemExit] meets none of the
    clauses of lines 138-143. *)
Definition script (net : network) (args : parsed) (served : error)
  : list report * option Z :=
  match args with
  | SystemExit status => ([], Some status)
  | Namespace host port _ =>
      match main net host port served with
      | (lines, KeyboardInterrupt) =>
          ((Info <$> lines) ++ [Interrupted; ShutDown], None)
      | (lines, e) => ((Info <$> lines) ++ [Error e; ShutDown], None)
      end
  end.

(** A host with two interfaces, one of them listed twice, next to the
    loopback addresses. *)
Definition office : network :=
  {| gethostname := Got "robot-lab";
     getaddrinfo := λ _, Got ["192.168.1.20"; "127.0.0.1"; "::1";
                               "10.0.0.5"; "192.168.1.20";
                               "fe80::1"];
     socket_socket := None;
     getsockname := Got "192.168.1.20" |}.

(** A host whose name resolves to the loopback only. *)
Definition laptop : network :=
  {| gethostname := Got "laptop";
     getaddrinfo := λ _, Got ["127.0.0.1"; "::1"];
     socket_socket := None;
     getsockname := Got "172.16.0.9" |}.

End Banner.

(** * Properties *)

(** ** Blocks that only print, send and read the clock *)

Lemma emit_emit fx fx' s : emit fx' (emit fx s) = emit (fx ++ fx') s.
Proof. unfold emit; simpl; by rewrite app_assoc. Qed.

Lemma eq_str_true v s : Py.eq_str v s = true → v = JStr s.
Proof.
  destruct v; simpl; try discriminate.
  intros H; apply String.eqb_eq in H; by subst.
Qed.


Lemma has_key_true key fields v :
  Py.lookup key fields = Some v → Py.has_key key fields = true.
Proof. unfold Py.has_key; by intros ->. Qed.

#[local] Arguments emit : simpl never.

(** Runs the straight-line part of a block. *)
Ltac run_block :=
  repeat (progress (cbv beta iota delta
                      [mbind M_bind mret M_ret and_then eval print send raise];
                    simpl)).

Lemma printing_nothing s : printing [] 0 s = s.
Proof.
  destruct s; unfold printing; simpl.
  by rewrite app_nil_r, Nat.add_0_r.
Qed.

Lemma printing_printing lines reads lines' reads' s :
  printing lines' reads' (printing lines reads s)
  = printing (lines ++ lines') (reads + reads') s.
Proof.
  unfold printing; simpl.
  by rewrite fmap_app, app_assoc, Nat.add_assoc.
Qed.

Create HintDb blocks discriminated.

Lemma only_prints_ret {A} (a : A) : only_prints (mret a).
Proof. intros s. exists [], 0. by rewrite printing_nothing. Qed.

Lemma only_prints_eval {A} (r : outcome A) : only_prints (eval r).
Proof. intros s. exists [], 0. by rewrite printing_nothing. Qed.

Lemma only_prints_raise {A} (e : exn) : only_prints (raise (A := A) e).
Proof. apply only_prints_eval. Qed.

Lemma only_prints_print l : only_prints (print l).
Proof.
  intros s. exists [l], 0. unfold print, printing, emit; simpl.
  by rewrite Nat.add_0_r.
Qed.

Lemma only_prints_read_message_count : only_prints read_message_count.
Proof. intros s. exists [], 0. by rewrite printing_nothing. Qed.

Lemma only_prints_now clock : only_prints (now clock).
Proof.
  intros s. exists [], 1. unfold now, ticked, printing; simpl.
  by rewrite app_nil_r.
Qed.

Lemma only_prints_bind {A B} (m : M A) (k : A → M B) :
  only_prints m → (∀ a, only_prints (k a)) → only_prints (m ≫= k).
Proof.
  intros Hm Hk s. destruct (Hm s) as (lines & reads & E).
  unfold mbind, M_bind. destruct (m s) as [[a|e] s1]; simpl in E; subst s1.
  - destruct (Hk a (printing lines reads s)) as (lines' & reads' & E').
    exists (lines ++ lines'), (reads + reads').
    by rewrite E', printing_printing.
  - by exists lines, reads.
Qed.

Lemma only_prints_if {A} (b : bool) (m m' : M A) :
  only_prints m → only_prints m' → only_prints (if b then m else m').
Proof. by destruct b. Qed.

Lemma only_prints_and_then (a b : M bool) :
  only_prints a → only_prints b → only_prints (and_then a b).
Proof.
  intros Ha Hb. apply only_prints_bind; [done|].
  intros x. apply only_prints_if; [done | apply only_prints_ret].
Qed.

Lemma only_prints_try_except {A} (body : M A) (clauses : exn → option (M A)) :
  only_prints body →
  (∀ e clause, clauses e = Some clause → only_prints clause) →
  only_prints (try_except body clauses).
Proof.
  intros Hbody Hclauses s. destruct (Hbody s) as (lines & reads & E).
  unfold try_except. destruct (body s) as [[a|e] s1]; simpl in E; subst s1.
  - by exists lines, reads.
  - destruct (clauses e) as [clause|] eqn:Ec.
    + destruct (Hclauses e clause Ec (printing lines reads s))
        as (lines' & reads' & E').
      exists (lines ++ lines'), (reads + reads').
      by rewrite E', printing_printing.
    + by exists lines, reads.
Qed.

#[local] Hint Resolve only_prints_ret only_prints_eval only_prints_raise
  only_prints_print only_prints_read_message_count only_prints_now
  only_prints_bind only_prints_if only_prints_and_then : blocks.

Lemma only_prints_dump dumpable data : only_prints (dump dumpable data).
Proof. unfold dump. destruct (dumpable data); auto with blocks. Qed.

Lemma only_prints_print_value print_error l v :
  only_prints (print_value print_error l v).
Proof. unfold print_value. destruct (print_error v); auto with blocks. Qed.

#[local] Hint Resolve only_prints_dump only_prints_print_value : blocks.

Lemma only_prints_extract_gps print_error data :
  only_prints (extract_gps print_error data).
Proof.
  unfold extract_gps.
  repeat first
    [ apply only_prints_bind; [|intros ?]
    | apply only_prints_and_then
    | apply only_prints_if
    | solve [auto with blocks] ].
Qed.

Lemma only_prints_show_raw clock client_id message :
  only_prints (show_raw clock client_id message).
Proof.
  unfold show_raw.
  repeat first
    [ apply only_prints_bind; [|intros ?] | solve [auto with blocks] ].
Qed.

Lemma only_prints_show_json clock dumpable print_error client_id data :
  only_prints (show_json clock dumpable print_error client_id data).
Proof.
  unfold show_json.
  repeat first
    [ apply only_prints_extract_gps
    | apply only_prints_bind; [|intros ?]
    | solve [auto with blocks] ].
Qed.

Lemma only_prints_show json_loads clock dumpable print_error
    client_id message :
  only_prints (show json_loads clock dumpable print_error client_id message).
Proof.
  unfold show. apply only_prints_try_except.
  - apply only_prints_bind; [auto with blocks|].
    intros data. apply only_prints_show_json.
  - intros e clause. destruct e; try discriminate.
    intros [= <-]. apply only_prints_show_raw.
Qed.

Lemma only_prints_steady {A} (m : M A) : only_prints m → steady m.
Proof.
  intros H s. destruct (H s) as (lines & reads & ->). by unfold printing.
Qed.

Lemma only_prints_uncounted {A} (m : M A) : only_prints m → uncounted m.
Proof.
  intros H s. destruct (H s) as (lines & reads & ->). by unfold printing.
Qed.

(** ** The telemetry of a message *)


(** ** The blocks of [handle_client] *)

Section Blocks.

Variable json_loads : frame → outcome json.
Variable clock : nat → datetime.
Variable args_respond : bool.
Variable dumpable : json → bool.
Variable print_error : json → option unwritable.

#[local] Abbreviation Show := (show json_loads clock dumpable print_error).
#[local] Abbreviation Process :=
  (process json_loads clock args_respond dumpable print_error).
#[local] Abbreviation Iteration :=
  (iteration json_loads clock args_respond dumpable print_error).

Lemma enter_spec ws remote_address s :
  enter clock ws remote_address s =
    (Return (label (size (connected_clients s))),
     {| connected_clients := {[ws]} ∪ connected_clients s;
        message_count := message_count s;
        ticks := ticks s + 1;
        effects := effects s ++
          [Print (NewConnection (clock (ticks s)) remote_address
                    (label (size (connected_clients s))));
           Print (Waiting (label (size (connected_clients s))))];
        handlers := handlers s |}).
Proof.
  unfold enter, len_connected_clients, now, add_client. run_block.
  unfold emit; simpl. by rewrite <- app_assoc.
Qed.

(** Leaving the [try] statement: the [except] clause that applies,
    then the [finally] clause. *)
Lemma leave_spec ws id body s :
  ws ∈ connected_clients s →
  leave clock ws id body s =
    match body with
    | Return _ =>
        (Return (),
         departed ws
           [Disconnected id (size (connected_clients s ∖ {[ws]}))] 0 s)
    | Raise (ConnectionClosed code reason) =>
        (Return (),
         departed ws
           [Closed (clock (ticks s)) id code reason;
            Disconnected id (size (connected_clients s ∖ {[ws]}))] 1 s)
    | Raise e =>
        if is_Exception e then
          (Return (),
           departed ws
             [Failed (clock (ticks s)) id e;
              Disconnected id (size (connected_clients s ∖ {[ws]}))] 1 s)
        else
          (Raise e,
           departed ws
             [Disconnected id (size (connected_clients s ∖ {[ws]}))] 0 s)
    end.
Proof.
  intros Hin.
  assert (∀ s1, connected_clients s1 = connected_clients s →
            cleanup ws id s1
            = (Return (),
               departed ws
                 [Disconnected id (size (connected_clients s ∖ {[ws]}))]
                 0 s1)) as Hfinal.
  { intros s1 E. unfold cleanup, remove_client, len_connected_clients.
    cbv beta iota delta [mbind M_bind]. rewrite E.
    destruct (decide (ws ∈ connected_clients s)); [|done].
    unfold print, emit, departed; simpl. by rewrite E, Nat.add_0_r. }
  unfold leave, try_finally, excepted.
  destruct body as [[]|e]; [|destruct e]; run_block;
    unfold now; run_block; rewrite Hfinal by done;
    unfold departed, emit, ticked; simpl;
    rewrite ?Nat.add_0_r, <- ?app_assoc; done.
Qed.

Lemma leave_registry ws id body s :
  connected_clients (leave clock ws id body s).2
  = connected_clients s ∖ {[ws]}.
Proof.
  destruct (decide (ws ∈ connected_clients s)) as [Hin|Hout].
  - rewrite leave_spec by done.
    destruct body as [[]|e]; [|destruct e]; done.
  - assert (connected_clients s ∖ {[ws]} = connected_clients s) as ->
      by set_solver.
    unfold leave, try_finally, excepted, cleanup, remove_client.
    destruct body as [[]|e]; [|destruct e]; run_block; unfold now;
      run_block; by destruct (decide _).
Qed.

Lemma leave_appends ws id body s :
  ∃ fx, effects (leave clock ws id body s).2 = effects s ++ fx.
Proof.
  unfold leave, try_finally, excepted, cleanup, remove_client,
    len_connected_clients.
  destruct body as [[]|e]; [|destruct e]; run_block; unfold now;
    run_block; destruct (decide _); unfold emit; simpl;
    rewrite <- ?app_assoc; eauto using app_nil_r.
Qed.

Lemma leave_message_count ws id body s :
  message_count (leave clock ws id body s).2 = message_count s.
Proof.
  unfold leave, try_finally, excepted, cleanup, remove_client,
    len_connected_clients.
  destruct body as [[]|e]; [|destruct e]; run_block; unfold now;
    run_block; by destruct (decide _).
Qed.

Lemma leave_handlers ws id body s :
  handlers (leave clock ws id body s).2 = handlers s.
Proof.
  unfold leave, try_finally, excepted, cleanup, remove_client,
    len_connected_clients.
  destruct body as [[]|e]; [|destruct e]; run_block; unfold now;
    run_block; by destruct (decide _).
Qed.

(** One counted message: the lines that [show] prints, then the
    acknowledgment when it is asked for; nothing more, and no
    acknowledgment, when [show] raises. *)
Lemma process_spec ws id message s :
  ∃ lines reads,
    let s1 := printing lines reads s in
    (Show id message s = (Return (), s1)
     ∧ Process ws id message s =
         if args_respond then
           (Return Sending,
            emit [Send ws (response (message_count s) (clock (ticks s1)))]
                 (ticked s1))
         else (Return Reading, s1))
    ∨ (∃ e, Show id message s = (Raise e, s1)
            ∧ Process ws id message s
              = (Raise e, s1)).
Proof.
  destruct (only_prints_show json_loads clock dumpable print_error
              id message s)
    as (lines & reads & E).
  exists lines, reads. simpl. unfold process.
  cbv beta iota delta [mbind M_bind].
  destruct (Show id message s) as [[[]|e] s1];
    simpl in E; subst s1.
  - left. split; [done|]. by destruct args_respond.
  - right. by exists e.
Qed.

Lemma process_appends ws id message s :
  ∃ fx, effects (Process ws id message s).2
        = effects (Show id message s).2 ++ fx.
Proof.
  unfold process. cbv beta iota delta [mbind M_bind].
  destruct (Show id message s) as [[[]|e] s1]; simpl.
  - destruct args_respond; run_block; eauto using app_nil_r.
  - eauto using app_nil_r.
Qed.

Lemma steady_process ws id message :
  steady (Process ws id message).
Proof.
  intros s. destruct (process_spec ws id message s)
    as (lines & reads & [[_ ->]|(e & _ & ->)]); [|done].
  by destruct args_respond.
Qed.

Lemma uncounted_process ws id message :
  uncounted (Process ws id message).
Proof.
  intros s. destruct (process_spec ws id message s)
    as (lines & reads & [[_ ->]|(e & _ & ->)]); [|done].
  by destruct args_respond.
Qed.

Lemma steady_iteration ws id message :
  steady (Iteration ws id message).
Proof. intros s. apply (steady_process ws id message (counted s)). Qed.

Lemma iteration_message_count ws id message s :
  message_count
    (Iteration ws id message s).2
  = message_count s + 1.
Proof. apply (uncounted_process ws id message (counted s)). Qed.

Lemma steady_sent id : steady (sent id).
Proof. apply only_prints_steady. unfold sent. auto with blocks. Qed.

Lemma uncounted_sent id : uncounted (sent id).
Proof. apply only_prints_uncounted. unfold sent. auto with blocks. Qed.

End Blocks.

(** ** Decoded and undecoded messages *)

Lemma never_raises_ret {A} e (a : A) : never_raises e (mret a).
Proof. by intros s. Qed.

Lemma never_raises_eval {A} e (r : outcome A) :
  r ≠ Raise e → never_raises e (eval r).
Proof. by intros H s. Qed.

Lemma never_raises_print e l : never_raises e (print l).
Proof. by intros s. Qed.

Lemma never_raises_now e clock : never_raises e (now clock).
Proof. by intros s. Qed.

Lemma never_raises_read_message_count e : never_raises e read_message_count.
Proof. by intros s. Qed.

Lemma never_raises_bind {A B} e (m : M A) (k : A → M B) :
  never_raises e m → (∀ a, never_raises e (k a)) → never_raises e (m ≫= k).
Proof.
  intros Hm Hk s. specialize (Hm s). unfold mbind, M_bind.
  destruct (m s) as [[a|e'] s1]; [apply Hk|].
  simpl in *. intros [= ->]. by apply Hm.
Qed.

Lemma never_raises_if {A} e (b : bool) (m m' : M A) :
  never_raises e m → never_raises e m' → never_raises e (if b then m else m').
Proof. by destruct b. Qed.

Lemma never_raises_and_then e (a b : M bool) :
  never_raises e a → never_raises e b → never_raises e (and_then a b).
Proof.
  intros Ha Hb. apply never_raises_bind; [done|].
  intros x. apply never_raises_if; [done | apply never_raises_ret].
Qed.

Lemma contains_no_decode_error key v : Py.contains key v ≠ Raise JSONDecodeError.
Proof. by destruct v. Qed.

Lemma getitem_no_decode_error v key : Py.getitem v key ≠ Raise JSONDecodeError.
Proof. destruct v; try done. simpl. by destruct (Py.lookup key fields). Qed.

Lemma get_no_decode_error v key fallback :
  Py.get v key fallback ≠ Raise JSONDecodeError.
Proof. by destruct v. Qed.

Lemma never_raises_raise {A} e e' : e' ≠ e → never_raises e (raise (A := A) e').
Proof. intros H s [= E]. by apply H. Qed.

Lemma never_raises_dump dumpable data :
  never_raises JSONDecodeError (dump dumpable data).
Proof.
  unfold dump. destruct (dumpable data);
    [apply never_raises_print | by apply never_raises_raise].
Qed.

Lemma never_raises_print_value print_error l v :
  never_raises JSONDecodeError (print_value print_error l v).
Proof.
  unfold print_value. destruct (print_error v) as [[]|];
    [by apply never_raises_raise.. | apply never_raises_print].
Qed.

#[local] Hint Resolve never_raises_dump never_raises_print_value : blocks.

#[local] Hint Resolve never_raises_ret never_raises_print never_raises_now
  never_raises_read_message_count contains_no_decode_error
  getitem_no_decode_error get_no_decode_error : blocks.

Lemma extract_gps_no_decode_error print_error data :
  never_raises JSONDecodeError (extract_gps print_error data).
Proof.
  unfold extract_gps.
  repeat first
    [ apply never_raises_bind; [|intros ?]
    | apply never_raises_and_then
    | apply never_raises_if
    | apply never_raises_eval
    | solve [auto with blocks] ].
Qed.

Lemma show_json_no_decode_error clock dumpable print_error id data :
  never_raises JSONDecodeError (show_json clock dumpable print_error id data).
Proof.
  unfold show_json.
  repeat first
    [ apply extract_gps_no_decode_error
    | apply never_raises_bind; [|intros ?]
    | solve [auto with blocks] ].
Qed.

Section Decoding.

Variable json_loads : frame → outcome json.
Variable clock : nat → datetime.
Variable dumpable : json → bool.
Variable print_error : json → option unwritable.

(** A message that decodes is shown as the decoded value; the [except]
    clause is not entered. *)
Lemma show_decoded id message data s :
  json_loads message = Return data →
  show json_loads clock dumpable print_error id message s
  = show_json clock dumpable print_error id data s.
Proof.
  intros Hloads. unfold show, try_except.
  cbv beta iota delta [mbind M_bind eval]. rewrite Hloads.
  pose proof (show_json_no_decode_error clock dumpable print_error id data s)
    as Hno.
  destruct (show_json clock dumpable print_error id data s) as [[[]|e] s1];
    [done|].
  destruct e; done.
Qed.

(** A message that is no JSON goes to the [except] clause. *)
Lemma show_undecoded id message s :
  json_loads message = Raise JSONDecodeError →
  show json_loads clock dumpable print_error id message s
  = show_raw clock id message s.
Proof.
  intros Hloads. unfold show, try_except.
  cbv beta iota delta [mbind M_bind eval]. by rewrite Hloads.
Qed.

(** Any other exception of the decoder leaves [show] at once. *)
Lemma show_decoder_fails id message e s :
  json_loads message = Raise e → e ≠ JSONDecodeError →
  show json_loads clock dumpable print_error id message s = (Raise e, s).
Proof.
  intros Hloads Hne. unfold show, try_except.
  cbv beta iota delta [mbind M_bind eval]. rewrite Hloads.
  by destruct e.
Qed.

Lemma show_raw_text id text s :
  show_raw clock id (Text text) s =
    (Return (),
     printing
       [RawHeader (clock (ticks s)) (message_count s) id;
        Raw (Text (String.substring 0 200 text
                   +:+ (if (200 <? String.length text)%nat
                        then "..." else EmptyString)))] 1 s).
Proof.
  unfold show_raw, now, read_message_count. run_block.
  unfold printing, emit, ticked; simpl. by rewrite <- app_assoc.
Qed.

(** A decoded message is announced under the current value of the
    counter. *)
Lemma show_json_header id data s :
  ∃ lines reads,
    (show_json clock dumpable print_error id data s).2 =
      printing (MessageHeader (clock (ticks s)) (message_count s) id
                  :: lines) (1 + reads) s.
Proof.
  set (s1 := printing [MessageHeader (clock (ticks s)) (message_count s) id]
               1 s).
  assert (only_prints (dump dumpable data;; extract_gps print_error data))
    as Hrest.
  { apply only_prints_bind; [apply only_prints_dump|].
    intros ?. apply only_prints_extract_gps. }
  destruct (Hrest s1) as (lines & reads & E).
  exists lines, reads.
  pose proof (printing_printing
                [MessageHeader (clock (ticks s)) (message_count s) id]
                1 lines reads s) as P.
  cbn [app] in P. rewrite <- P. fold s1. rewrite <- E.
  unfold show_json, now, read_message_count.
  cbv beta iota delta [mbind M_bind mret M_ret print]. simpl.
  assert (emit [Print (MessageHeader (clock (ticks s)) (message_count s) id)]
            (ticked s) = s1) as ->.
  { unfold s1, printing, emit, ticked; simpl. done. }
  done.
Qed.

Lemma show_raw_binary id b s :
  show_raw clock id (Binary b) s =
    (Raise TypeError,
     printing [RawHeader (clock (ticks s)) (message_count s) id] 1 s).
Proof.
  unfold show_raw, now, read_message_count. run_block.
  by unfold printing, emit, ticked.
Qed.

End Decoding.

(** ** Transitions *)

Section Steps.

Variable json_loads : frame → outcome json.
Variable clock : nat → datetime.
Variable args_respond : bool.
Variable dumpable : json → bool.
Variable print_error : json → option unwritable.

#[local] Abbreviation Step :=
  (step json_loads clock args_respond dumpable print_error).
#[local] Abbreviation Run :=
  (run json_loads clock args_respond dumpable print_error).
#[local] Abbreviation Numbers :=
  (numbers json_loads clock args_respond dumpable print_error).
#[local] Abbreviation Counts :=
  (counts json_loads clock args_respond dumpable print_error).
#[local] Abbreviation Iteration :=
  (iteration json_loads clock args_respond dumpable print_error).
#[local] Abbreviation Process :=
  (process json_loads clock args_respond dumpable print_error).

Lemma waiting_Some ws p s h :
  waiting ws p s = Some h ↔ handlers s !! ws = Some h ∧ at_await h = p.
Proof.
  unfold waiting. destruct (handlers s !! ws) as [h'|]; [|naive_solver].
  destruct h' as [id' p']; simpl. destruct p', p; naive_solver.
Qed.

Lemma iteration_counted ws id message s :
  Iteration ws id message s = Process ws id message (counted s).
Proof. reflexivity. Qed.

(** How a task that ends leaves the state. *)
Lemma finish_spec ws h body s :
  connected_clients (finish clock ws h body s)
    = connected_clients s ∖ {[ws]}
  ∧ message_count (finish clock ws h body s) = message_count s
  ∧ handlers (finish clock ws h body s) = delete ws (handlers s).
Proof.
  unfold finish, set_handlers; simpl.
  by rewrite leave_registry, leave_message_count, leave_handlers.
Qed.

(** A task that resumes with a steady block either suspends again,
    and the registry is as before, or ends, and the registry loses
    its connection. *)
Lemma resume_spec ws h block s :
  steady block →
  let s' := resume clock ws h block s in
  message_count s' = message_count (block s).2
  ∧ ((∃ p, block s = (Return p, (block s).2)
           ∧ handlers s' = <[ws := {| client_id := client_id h;
                                       at_await := p |}]> (handlers s)
           ∧ connected_clients s' = connected_clients s)
     ∨ (∃ e, block s = (Raise e, (block s).2)
             ∧ handlers s' = delete ws (handlers s)
             ∧ connected_clients s' = connected_clients s ∖ {[ws]})).
Proof.
  intros Hsteady. destruct (Hsteady s) as (Hcc & Hh).
  unfold resume. destruct (block s) as [[p|e] s1]; cbn [fst snd] in *.
  - split; [done|]. left. exists p. by rewrite <- Hh.
  - destruct (finish_spec ws h (Raise e) s1) as (Fcc & Fmc & Fh).
    split; [by rewrite Fmc|]. right. exists e. by rewrite Fcc, Fh, Hcc, Hh.
Qed.

(** Each transition counts a message when it receives one, and only
    then. *)
Lemma step_message_count ev s s' :
  Step ev s = Some s' →
  message_count s' = message_count s + (if is_receive ev then 1 else 0).
Proof.
  destruct ev as [ws addr|ws message|ws|ws e|ws|ws e];
    unfold step; cbn [is_receive].
  - destruct (handlers s !! ws); [done|]. rewrite enter_spec.
    intros [= <-]. simpl. lia.
  - destruct (waiting ws Reading s) as [h|]; [|done]. intros [= <-].
    destruct (resume_spec ws h (Iteration ws (client_id h) message) s
                (steady_iteration _ _ _ _ _ _ _ _)) as [-> _].
    apply iteration_message_count.
  - destruct (waiting ws Reading s) as [h|]; [|done]. intros [= <-].
    destruct (finish_spec ws h (Return ()) s) as (_ & -> & _). lia.
  - destruct (waiting ws Reading s) as [h|]; [|done]. intros [= <-].
    destruct (finish_spec ws h (Raise e) s) as (_ & -> & _). lia.
  - destruct (waiting ws Sending s) as [h|]; [|done]. intros [= <-].
    destruct (resume_spec ws h (sent (client_id h)) s (steady_sent _))
      as [-> _]. rewrite uncounted_sent. lia.
  - destruct (waiting ws Sending s) as [h|]; [|done]. intros [= <-].
    destruct (finish_spec ws h (Raise e) s) as (_ & -> & _). lia.
Qed.

(** What a transition does to the tasks and to the registry: a new
    task registers its connection, a task that suspends again leaves
    the registry alone, a task that ends takes its connection out. *)
Lemma step_shape ev s s' :
  Step ev s = Some s' →
  let ws := subject ev in
  (∃ id, handlers s !! ws = None
         ∧ handlers s' = <[ws := {| client_id := id; at_await := Reading |}]>
                           (handlers s)
         ∧ connected_clients s' = {[ws]} ∪ connected_clients s)
  ∨ (∃ h p, handlers s !! ws = Some h
            ∧ handlers s' = <[ws := {| client_id := client_id h;
                                        at_await := p |}]> (handlers s)
            ∧ connected_clients s' = connected_clients s)
  ∨ (∃ h, handlers s !! ws = Some h
          ∧ handlers s' = delete ws (handlers s)
          ∧ connected_clients s' = connected_clients s ∖ {[ws]}).
Proof.
  destruct ev as [ws addr|ws message|ws|ws e|ws|ws e];
    unfold step; cbn [subject].
  - destruct (handlers s !! ws) eqn:E; [done|]. rewrite enter_spec.
    intros [= <-]. left. by eexists.
  - destruct (waiting ws Reading s) as [h|] eqn:W; [|done]. intros [= <-].
    apply waiting_Some in W as [W _]. right.
    destruct (resume_spec ws h (Iteration ws (client_id h) message) s
                (steady_iteration _ _ _ _ _ _ _ _))
      as [_ [(p & _ & Hh & Hcc)|(e & _ & Hh & Hcc)]].
    + left. by exists h, p.
    + right. by exists h.
  - destruct (waiting ws Reading s) as [h|] eqn:W; [|done]. intros [= <-].
    apply waiting_Some in W as [W _]. right. right. exists h.
    by destruct (finish_spec ws h (Return ()) s) as (-> & _ & ->).
  - destruct (waiting ws Reading s) as [h|] eqn:W; [|done]. intros [= <-].
    apply waiting_Some in W as [W _]. right. right. exists h.
    by destruct (finish_spec ws h (Raise e) s) as (-> & _ & ->).
  - destruct (waiting ws Sending s) as [h|] eqn:W; [|done]. intros [= <-].
    apply waiting_Some in W as [W _]. right.
    destruct (resume_spec ws h (sent (client_id h)) s (steady_sent _))
      as [_ [(p & _ & Hh & Hcc)|(e & _ & Hh & Hcc)]].
    + left. by exists h, p.
    + right. by exists h.
  - destruct (waiting ws Sending s) as [h|] eqn:W; [|done]. intros [= <-].
    apply waiting_Some in W as [W _]. right. right. exists h.
    by destruct (finish_spec ws h (Raise e) s) as (-> & _ & ->).
Qed.

(** ** Runs *)

Lemma run_cons ev evs s s' :
  Run (ev :: evs) s = Some s' ↔ ∃ s1, Step ev s = Some s1 ∧ Run evs s1 = Some s'.
Proof.
  simpl. destruct (Step ev s) as [s1|]; [|naive_solver].
  split; [by exists s1 | by intros (? & [= <-] & ?)].
Qed.


Lemma run_message_count evs s s' :
  Run evs s = Some s' → message_count s' = message_count s + received evs.
Proof.
  revert s. induction evs as [|ev evs IH]; intros s.
  - intros [= <-]. simpl. lia.
  - rewrite run_cons. intros (s1 & Hstep & Hrun).
    rewrite (IH _ Hrun), (step_message_count _ _ _ Hstep). simpl. lia.
Qed.

Lemma numbers_seq evs s s' :
  Run evs s = Some s' →
  Numbers evs s = seq (message_count s + 1) (received evs).
Proof.
  revert s. induction evs as [|ev evs IH]; intros s; [done|].
  rewrite run_cons. intros (s1 & Hstep & Hrun). simpl. rewrite Hstep.
  rewrite (IH _ Hrun), (step_message_count _ _ _ Hstep).
  destruct (is_receive ev); simpl.
  - f_equal. f_equal. lia.
  - f_equal; lia.
Qed.

Lemma counts_from evs s s' :
  Run evs s = Some s' →
  Forall (le (message_count s)) (Counts evs s)
  ∧ StronglySorted le (Counts evs s).
Proof.
  revert s. induction evs as [|ev evs IH]; intros s.
  - intros _. split; constructor.
  - rewrite run_cons. intros (s1 & Hstep & Hrun). simpl. rewrite Hstep.
    destruct (IH _ Hrun) as [Hall Hsorted].
    pose proof (step_message_count _ _ _ Hstep) as Hcount.
    split.
    + constructor; [lia|].
      eapply Forall_impl; [exact Hall|]. simpl. intros; lia.
    + by constructor.
Qed.

Lemma seq_strictly_sorted a n : StronglySorted lt (seq a n).
Proof.
  revert a. induction n as [|n IH]; intros a; simpl; constructor; [done|].
  apply Forall_forall. intros x Hx. apply elem_of_seq in Hx. lia.
Qed.

(** C3. The counter after a run from the start is the number of
    messages received in it, whatever the connections they came from.
    Every transition that receives a message adds exactly one, every
    other transition leaves the counter alone, hence it never goes
    down; the numbers given to the messages are 1, 2, ..., K in this
    order: strictly increasing, without repeats. *)
Theorem message_count_is_received evs s :
  Run evs initial = Some s →
  message_count s = received evs
  ∧ (∀ ev a b, Step ev a = Some b →
       message_count b = message_count a + (if is_receive ev then 1 else 0))
  ∧ StronglySorted le (Counts evs initial)
  ∧ Numbers evs initial = seq 1 (received evs)
  ∧ StronglySorted lt (Numbers evs initial)
  ∧ NoDup (Numbers evs initial).
Proof.
  intros Hrun.
  pose proof (numbers_seq _ _ _ Hrun) as Hnum. simpl in Hnum.
  split; [apply (run_message_count _ _ _ Hrun)|].
  split; [apply step_message_count|].
  split; [apply (counts_from _ _ _ Hrun)|].
  split; [done|]. rewrite Hnum.
  split; [apply seq_strictly_sorted | apply NoDup_seq].
Qed.

(** ** The registry *)

Lemma initial_consistent : consistent initial.
Proof. unfold consistent, initial; simpl. by rewrite dom_empty_L. Qed.

Lemma step_consistent ev s s' :
  consistent s → Step ev s = Some s' → consistent s'.
Proof.
  unfold consistent. intros Hs Hstep.
  destruct (step_shape _ _ _ Hstep)
    as [(id & Hnone & -> & ->)|[(h & p & Hsome & -> & ->)|(h & Hsome & -> & ->)]].
  - by rewrite dom_insert_L, Hs.
  - rewrite dom_insert_L, Hs.
    assert (subject ev ∈ connected_clients s)
      by (rewrite <- Hs; apply elem_of_dom; eauto).
    set_solver.
  - by rewrite dom_delete_L, Hs.
Qed.

Lemma run_consistent evs s s' :
  consistent s → Run evs s = Some s' → consistent s'.
Proof.
  revert s. induction evs as [|ev evs IH]; intros s Hs.
  - by intros [= <-].
  - rewrite run_cons. intros (s1 & Hstep & Hrun).
    eapply IH; [|done]. by eapply step_consistent.
Qed.

Lemma reachable_consistent evs s : Run evs initial = Some s → consistent s.
Proof. apply run_consistent, initial_consistent. Qed.

(** A transition that ends a handler is about the connection of this
    handler, and takes exactly this connection out of the registry. *)
Lemma step_ends ev s s' ws h :
  consistent s → Step ev s = Some s' →
  handlers s !! ws = Some h → handlers s' !! ws = None →
  subject ev = ws
  ∧ ws ∈ connected_clients s
  ∧ connected_clients s' = connected_clients s ∖ {[ws]}
  ∧ handlers s' = delete ws (handlers s)
  ∧ size (connected_clients s) = size (connected_clients s') + 1.
Proof.
  intros Hs Hstep Hbefore Hafter.
  assert (ws ∈ connected_clients s) as Hin
    by (rewrite <- Hs; apply elem_of_dom; eauto).
  destruct (step_shape _ _ _ Hstep)
    as [(id & Hnone & Hh & Hcc)|[(h' & p & Hsome & Hh & Hcc)|(h' & Hsome & Hh & Hcc)]];
    rewrite Hh in Hafter.
  - destruct (decide (subject ev = ws)) as [E|Hne].
    + by rewrite E, lookup_insert_eq in Hafter.
    + rewrite lookup_insert_ne in Hafter by done. congruence.
  - destruct (decide (subject ev = ws)) as [E|Hne].
    + by rewrite E, lookup_insert_eq in Hafter.
    + rewrite lookup_insert_ne in Hafter by done. congruence.
  - destruct (decide (subject ev = ws)) as [E|Hne].
    + rewrite E in *. repeat split; try done.
      rewrite Hcc, size_difference by set_solver.
      rewrite size_singleton.
      assert (size (connected_clients s) ≠ 0); [|lia].
      intros Hz. apply size_empty_inv in Hz. set_solver.
    + rewrite lookup_delete_ne in Hafter by done. congruence.
Qed.





(** ** Where a handler ends *)

Lemma registered ws h s :
  consistent s → handlers s !! ws = Some h → ws ∈ connected_clients s.
Proof. intros <- H. apply elem_of_dom. eauto. Qed.

Lemma size_without ws (X : gset nat) :
  ws ∈ X → size (X ∖ {[ws]}) = size X - 1.
Proof.
  intros Hin. rewrite size_difference by set_solver.
  by rewrite size_singleton.
Qed.

(** The effects of a task that ends: the line of the [except] clause
    that applies, if one does, then the line of the [finally]
    clause. *)
Lemma finish_effects ws h body s :
  ws ∈ connected_clients s →
  effects (finish clock ws h body s) =
    effects s ++
    match body with
    | Return _ => []
    | Raise (ConnectionClosed code reason) =>
        [Print (Closed (clock (ticks s)) (client_id h) code reason)]
    | Raise e =>
        if is_Exception e
        then [Print (Failed (clock (ticks s)) (client_id h) e)]
        else []
    end ++ [Print (Disconnected (client_id h)
                     (size (connected_clients s) - 1))].
Proof.
  intros Hin. unfold finish. rewrite leave_spec by done.
  rewrite <- (size_without ws) by done.
  destruct body as [[]|e]; [|destruct e]; done.
Qed.


(** ** Labels *)

(** C8. The label of an accepted connection is [Client-] followed by
    the size of the registry at that moment plus one, and is computed
    from nothing else; so two connections accepted at equal registry
    sizes bear the same label, even while both are open. *)
Theorem label_from_registry_size :
  (∀ ws remote_address s,
     handlers s !! ws = None →
     ∃ s', Step (Connect ws remote_address) s = Some s'
           ∧ handlers s' !! ws =
               Some {| client_id :=
                         "Client-" +:+ pretty (size (connected_clients s) + 1);
                       at_await := Reading |}
           ∧ effects s' = effects s ++
               [Print (NewConnection (clock (ticks s)) remote_address
                         ("Client-"
                          +:+ pretty (size (connected_clients s) + 1)));
                Print (Waiting
                         ("Client-"
                          +:+ pretty (size (connected_clients s) + 1)))])
  ∧ ∃ evs s ws ws' h h',
      Run evs initial = Some s
      ∧ ws ≠ ws'
      ∧ handlers s !! ws = Some h
      ∧ handlers s !! ws' = Some h'
      ∧ client_id h = client_id h'.
Proof.
  split.
  - intros ws remote_address s Hnone. unfold step.
    rewrite Hnone, enter_spec. eexists. split; [done|].
    unfold set_handlers; simpl. by rewrite lookup_insert_eq.
  - exists [Connect 1 ("10.0.0.1", 40001%N); Connect 2 ("10.0.0.2", 40002%N);
            Exhausted 1; Connect 3 ("10.0.0.3", 40003%N)].
    eexists. exists 2, 3. eexists. eexists.
    split; [vm_compute; reflexivity|].
    split; [done|]. split; [vm_compute; reflexivity|].
    split; [vm_compute; reflexivity|]. reflexivity.
Qed.

(** ** One message *)

Lemma step_receive ws message s h :
  waiting ws Reading s = Some h →
  Step (Receive ws message) s
  = Some (resume clock ws h (Process ws (client_id h) message) (counted s)).
Proof. intros W. unfold step. by rewrite W. Qed.

Lemma resume_appends ws h block s :
  ∃ fx, effects (resume clock ws h block s) = effects (block s).2 ++ fx.
Proof.
  unfold resume. destruct (block s) as [[p|e] s1]; simpl.
  - exists []. by rewrite app_nil_r.
  - unfold finish. simpl. apply leave_appends.
Qed.

(** What a received message prints first. *)
Lemma receive_announces ws message s h :
  waiting ws Reading s = Some h →
  ∀ first,
    (∃ lines reads,
       (show json_loads clock dumpable print_error (client_id h) message
          (counted s)).2
       = printing (first :: lines) reads (counted s)) →
    ∃ s' fx, Step (Receive ws message) s = Some s'
             ∧ effects s' = effects s ++ Print first :: fx.
Proof.
  intros W first (lines & reads & E). rewrite (step_receive _ _ _ _ W).
  eexists. 
  destruct (resume_appends ws h (Process ws (client_id h) message) (counted s))
    as (fx1 & ->).
  destruct (process_appends json_loads clock args_respond dumpable
              print_error ws (client_id h) message (counted s)) as (fx2 & ->).
  rewrite E. exists ((Print <$> lines) ++ fx2 ++ fx1). split; [done|].
  simpl. by rewrite <- !app_assoc.
Qed.

(** C9. A received message is counted first: what is done with the
    message, the decoding included, runs in the state in which the
    counter has already gone up by one, and nothing of it touches the
    counter again.  So the transition adds exactly one, also when the
    processing raises and the handler ends; and the line that announces
    the message, decoded or raw, already shows the new number. *)
Theorem counted_before_processing ws message s h :
  waiting ws Reading s = Some h →
  Iteration ws (client_id h) message s
    = Process ws (client_id h) message (counted s)
  ∧ message_count (counted s) = message_count s + 1
  ∧ message_count (Process ws (client_id h) message (counted s)).2
    = message_count (counted s)
  ∧ ∃ s', Step (Receive ws message) s = Some s'
          ∧ message_count s' = message_count s + 1
          ∧ (∀ e, (Process ws (client_id h) message (counted s)).1 = Raise e →
                  handlers s' !! ws = None
                  ∧ message_count s' = message_count s + 1)
          ∧ (∀ data, json_loads message = Return data →
               ∃ fx, effects s' = effects s ++
                       Print (MessageHeader (clock (ticks s))
                                (message_count s + 1) (client_id h)) :: fx)
          ∧ (json_loads message = Raise JSONDecodeError →
               ∃ fx, effects s' = effects s ++
                       Print (RawHeader (clock (ticks s))
                                (message_count s + 1) (client_id h)) :: fx).
Proof.
  intros W. split; [done|]. split; [done|].
  split; [apply uncounted_process|].
  eexists. split; [by apply step_receive|].
  assert (message_count
            (resume clock ws h (Process ws (client_id h) message) (counted s))
          = message_count s + 1) as Hcount.
  { destruct (resume_spec ws h (Process ws (client_id h) message) (counted s)
                (steady_process _ _ _ _ _ _ _ _)) as [-> _].
    apply uncounted_process. }
  split; [done|]. split; [|split].
  - intros e He. split; [|done]. unfold resume.
    destruct (Process ws (client_id h) message (counted s)) as [[p|e'] s1];
      [done|].
    destruct (finish_spec ws h (Raise e') s1) as (_ & _ & ->).
    apply lookup_delete_eq.
  - intros data Hloads.
    destruct (receive_announces ws message s h W
                (MessageHeader (clock (ticks s)) (message_count s + 1)
                   (client_id h))) as (s' & fx & Hstep & Hfx).
    { rewrite (show_decoded _ _ _ _ _ _ data) by done.
      destruct (show_json_header clock dumpable print_error (client_id h) data
                  (counted s)) as (lines & reads & E).
      eauto. }
    rewrite (step_receive _ _ _ _ W) in Hstep. injection Hstep as <-. eauto.
  - intros Hloads.
    destruct (receive_announces ws message s h W
                (RawHeader (clock (ticks s)) (message_count s + 1)
                   (client_id h))) as (s' & fx & Hstep & Hfx).
    { rewrite show_undecoded by done. destruct message as [text|b].
      - rewrite show_raw_text. eauto.
      - rewrite show_raw_binary. eauto. }
    rewrite (step_receive _ _ _ _ W) in Hstep. injection Hstep as <-. eauto.
Qed.

(** ** Binary frames *)

Lemma process_binary_undecoded ws id b s :
  json_loads (Binary b) = Raise JSONDecodeError →
  Process ws id (Binary b) s =
    (Raise TypeError,
     printing [RawHeader (clock (ticks s)) (message_count s) id] 1 s).
Proof.
  intros Hloads. unfold process. cbv beta iota delta [mbind M_bind].
  by rewrite show_undecoded, show_raw_binary.
Qed.

(** C10. A binary frame on which the decoder raises [JSONDecodeError]
    reaches the raw-text display, whose expression adds a string to a
    [bytes] value and raises [TypeError].  The exception leaves the
    loop: the handler prints the header of the raw message and the
    error, unregisters its connection and ends; the message has been
    counted.  A binary frame that decodes is handled like a text frame
    that decodes to the same value.  A binary frame whose bytes the
    decoder cannot read as text makes it raise [UnicodeDecodeError],
    which no clause inside the loop catches: the handler ends as well,
    but the display is never reached; it prints this error, and neither
    the header of a raw message nor a [TypeError]. *)
Theorem binary_text_ends_handler :
  (∀ evs ws b s h,
     Run evs initial = Some s →
     waiting ws Reading s = Some h →
     json_loads (Binary b) = Raise JSONDecodeError →
     raw_display (Binary b) = Raise TypeError
     ∧ ∃ s', Step (Receive ws (Binary b)) s = Some s'
             ∧ handlers s' !! ws = None
             ∧ connected_clients s' = connected_clients s ∖ {[ws]}
             ∧ message_count s' = message_count s + 1
             ∧ effects s' = effects s ++
                 [Print (RawHeader (clock (ticks s)) (message_count s + 1)
                           (client_id h));
                  Print (Failed (clock (ticks s + 1)) (client_id h) TypeError);
                  Print (Disconnected (client_id h)
                           (size (connected_clients s) - 1))])
  ∧ (∀ ws b text data s,
       json_loads (Binary b) = Return data →
       json_loads (Text text) = Return data →
       Step (Receive ws (Binary b)) s = Step (Receive ws (Text text)) s)
  ∧ (∀ evs ws b s h,
       Run evs initial = Some s →
       waiting ws Reading s = Some h →
       json_loads (Binary b) = Raise UnicodeDecodeError →
       ∃ s', Step (Receive ws (Binary b)) s = Some s'
             ∧ handlers s' !! ws = None
             ∧ connected_clients s' = connected_clients s ∖ {[ws]}
             ∧ message_count s' = message_count s + 1
             ∧ effects s' = effects s ++
                 [Print (Failed (clock (ticks s)) (client_id h)
                           UnicodeDecodeError);
                  Print (Disconnected (client_id h)
                           (size (connected_clients s) - 1))]).
Proof.
  split; [|split].
  - intros evs ws b s h Hrun W Hloads. split; [done|].
    rewrite (step_receive _ _ _ _ W). eexists. split; [done|].
    unfold resume. rewrite process_binary_undecoded by done.
    apply waiting_Some in W as [W _].
    pose proof (registered ws h s (reachable_consistent _ _ Hrun) W) as Hin.
    destruct (finish_spec ws h (Raise TypeError)
                (printing [RawHeader (clock (ticks (counted s)))
                             (message_count (counted s)) (client_id h)] 1
                   (counted s))) as (Hcc & Hmc & Hh).
    rewrite Hcc, Hmc, Hh, finish_effects by done.
    split; [apply lookup_delete_eq|]. split; [done|]. split; [done|].
    simpl. by rewrite <- app_assoc.
  - intros ws b text data s Hb Ht. unfold step.
    destruct (waiting ws Reading s) as [h|]; [|done]. f_equal.
    unfold resume, iteration, process, count_message.
    cbv beta iota delta [mbind M_bind].
    by rewrite (show_decoded _ _ _ _ _ _ data _ Hb),
               (show_decoded _ _ _ _ _ _ data _ Ht).
  - intros evs ws b s h Hrun W Hloads.
    rewrite (step_receive _ _ _ _ W). eexists. split; [done|].
    unfold resume, process. cbv beta iota delta [mbind M_bind].
    rewrite (show_decoder_fails _ _ _ _ _ _ UnicodeDecodeError) by done.
    apply waiting_Some in W as [W _].
    pose proof (registered ws h s (reachable_consistent _ _ Hrun) W) as Hin.
    destruct (finish_spec ws h (Raise UnicodeDecodeError) (counted s))
      as (Hcc & Hmc & Hh).
    rewrite Hcc, Hmc, Hh, finish_effects by done.
    split; [apply lookup_delete_eq | done].
Qed.

(** An exception of the decoder other than [JSONDecodeError] ends the
    handler as well, for frames of both kinds. *)
Lemma decoder_error_ends_handler evs ws message e s h :
  Run evs initial = Some s →
  waiting ws Reading s = Some h →
  json_loads message = Raise e → e ≠ JSONDecodeError →
  ∃ s', Step (Receive ws message) s = Some s'
        ∧ handlers s' !! ws = None
        ∧ connected_clients s' = connected_clients s ∖ {[ws]}
        ∧ message_count s' = message_count s + 1.
Proof.
  intros Hrun W Hloads Hne. rewrite (step_receive _ _ _ _ W).
  eexists. split; [done|]. unfold resume, process.
  cbv beta iota delta [mbind M_bind].
  rewrite (show_decoder_fails _ _ _ _ _ _ e) by done.
  destruct (finish_spec ws h (Raise e) (counted s)) as (-> & -> & ->).
  split; [apply lookup_delete_eq | done].
Qed.

(** ** A send that fails *)

(** C5, as the code has it.  When the send of an acknowledgment raises,
    the exception is caught by the [except] clauses around the loop,
    not inside it: the handler prints the close code and reason (or the
    error), unregisters its connection, prints the count that remains
    and ends.  It reads no further message; the other handlers and the
    counter are as before. *)
Theorem send_failure_ends_handler evs ws e s h :
  Run evs initial = Some s →
  waiting ws Sending s = Some h →
  is_Exception e = true →
  ∃ s', Step (SendRaises ws e) s = Some s'
        ∧ handlers s' = delete ws (handlers s)
        ∧ connected_clients s' = connected_clients s ∖ {[ws]}
        ∧ message_count s' = message_count s
        ∧ effects s' = effects s ++
            [Print (match e with
                    | ConnectionClosed code reason =>
                        Closed (clock (ticks s)) (client_id h) code reason
                    | _ => Failed (clock (ticks s)) (client_id h) e
                    end);
             Print (Disconnected (client_id h)
                      (size (connected_clients s) - 1))]
        ∧ ∀ message, Step (Receive ws message) s' = None.
Proof.
  intros Hrun W He. unfold step at 1. rewrite W. eexists. split; [done|].
  apply waiting_Some in W as [W _].
  pose proof (registered ws h s (reachable_consistent _ _ Hrun) W) as Hin.
  destruct (finish_spec ws h (Raise e) s) as (Hcc & Hmc & Hh).
  rewrite Hcc, Hmc, Hh, finish_effects by done.
  split; [done|]. split; [done|]. split; [done|]. split.
  - by destruct e.
  - intros message. unfold step, waiting. by rewrite Hh, lookup_delete_eq.
Qed.

End Steps.

(** ** Acknowledgments *)

Lemma is_digit_digit n : is_digit (digit n) = true.
Proof.
  unfold is_digit, digit.
  assert (n `mod` 10 < 10)%N as H by (apply N.mod_lt; lia).
  revert H. generalize (n `mod` 10)%N. intros d H.
  rewrite N_ascii_embedding; [|lia].
  apply andb_true_iff. split; apply N.leb_le; lia.
Qed.

(** The timestamp of an acknowledgment has the ISO-8601 shape. *)
Lemma isoformat_iso8601 t : is_iso8601 (isoformat t) = true.
Proof.
  unfold is_iso8601, isoformat, digits6, digits4, digits2.
  destruct (microsecond t =? 0)%N; simpl; by rewrite !is_digit_digit.
Qed.

Lemma acknowledgments_app ws fx fx' :
  acknowledgments ws (fx ++ fx') = acknowledgments ws fx ++ acknowledgments ws fx'.
Proof. unfold acknowledgments. apply omap_app. Qed.

Lemma acknowledgments_printed ws lines :
  acknowledgments ws (Print <$> lines) = [].
Proof. induction lines as [|l lines IH]; [done|]. by simpl. Qed.

Section Acknowledged.

Variable json_loads : frame → outcome json.
Variable clock : nat → datetime.
Variable dumpable : json → bool.
Variable print_error : json → option unwritable.

(** With [--respond], a message that [show] gets through is answered
    by one call of [send] on its connection, with the number just
    given to the message and the time in ISO-8601; the handler then
    waits for the send. *)
Lemma acknowledged_once ws message s h :
  waiting ws Reading s = Some h →
  (show json_loads clock dumpable print_error (client_id h) message
     (counted s)).1 = Return () →
  ∃ s' fx t,
    step json_loads clock true dumpable print_error (Receive ws message) s
      = Some s'
    ∧ message_count s' = message_count s + 1
    ∧ effects s' = effects s ++ fx
    ∧ acknowledgments ws fx =
        [JObj [("status", JStr "received");
               ("message_id", JInt (Z.of_nat (message_count s')));
               ("timestamp", JStr (isoformat t))]]
    ∧ is_iso8601 (isoformat t) = true
    ∧ handlers s' !! ws =
        Some {| client_id := client_id h; at_await := Sending |}.
Proof.
  intros W Hshow. rewrite (step_receive _ _ _ _ _ _ _ _ _ W).
  destruct (process_spec json_loads clock true dumpable print_error ws
              (client_id h) message (counted s))
    as (lines & reads & [[_ E]|(e & E & _)]);
    [|by rewrite E in Hshow].
  cbv zeta in E. unfold resume. rewrite E.
  set (t := clock (ticks (printing lines reads (counted s)))).
  eexists.
  exists ((Print <$> lines)
          ++ [Send ws (response (message_count (counted s)) t)]), t.
  split; [done|]. split; [done|]. split.
  { unfold set_handlers, emit; simpl. by rewrite <- app_assoc. }
  split.
  { rewrite acknowledgments_app, acknowledgments_printed. simpl.
    rewrite decide_True by done. done. }
  split; [apply isoformat_iso8601|].
  unfold set_handlers; simpl. apply lookup_insert_eq.
Qed.

End Acknowledged.

(** ** Messages that are shown and nothing more *)

(** A dict that is not a [publish] message, or has no [msg], or whose
    [msg] is a dict without both coordinates, is passed over in
    silence. *)
Lemma extract_gps_skips print_error fields s :
  Py.lookup "op" fields = None
  ∨ (∃ op, Py.lookup "op" fields = Some op ∧ Py.eq_str op "publish" = false)
  ∨ Py.lookup "msg" fields = None
  ∨ (∃ msg, Py.lookup "msg" fields = Some (JObj msg)
            ∧ Py.has_key "latitude" msg && Py.has_key "longitude" msg = false) →
  extract_gps print_error (JObj fields) s = (Return (), s).
Proof.
  intros H. unfold extract_gps, Py.contains, Py.getitem, Py.has_key.
  destruct (Py.lookup "op" fields) as [op|] eqn:Eop; [|done]. run_block.
  destruct (Py.eq_str op "publish") eqn:Epub; [|done]. run_block.
  destruct (Py.lookup "msg" fields) as [msg|] eqn:Emsg; [|done]. run_block.
  destruct H as [?|[(op' & [= <-] & ?)|[?|(msg' & [= ->] & Hkeys)]]];
    try congruence.
  unfold Py.has_key in Hkeys. run_block.
  destruct (Py.lookup "latitude" msg'); [|done]. run_block.
  by destruct (Py.lookup "longitude" msg').
Qed.

Lemma substring_all n text :
  String.length text ≤ n → String.substring 0 n text = text.
Proof.
  revert n. induction text as [|c text IH]; intros [|n]; simpl; try done.
  - lia.
  - intros H. f_equal. apply IH. lia.
Qed.

Lemma substring_prefix n text :
  ∃ rest, text = String.substring 0 n text +:+ rest
          ∧ String.length (String.substring 0 n text)
            = n `min` String.length text.
Proof.
  revert n. induction text as [|c text IH]; intros [|n]; simpl.
  - by exists EmptyString.
  - by exists EmptyString.
  - by exists (String c text).
  - destruct (IH n) as (rest & E & Hlen). exists rest.
    split; [by rewrite E at 1 | by rewrite Hlen].
Qed.

Section Raw.

Variable json_loads : frame → outcome json.
Variable clock : nat → datetime.
Variable args_respond : bool.
Variable dumpable : json → bool.
Variable print_error : json → option unwritable.

(** A text frame that is no JSON is counted and shown as raw text: its
    first 200 characters, followed by an ellipsis when it has more.
    The handler goes on. *)
Lemma raw_text_shown ws text s h :
  waiting ws Reading s = Some h →
  json_loads (Text text) = Raise JSONDecodeError →
  ∃ s', step json_loads clock args_respond dumpable print_error
          (Receive ws (Text text)) s
        = Some s'
        ∧ message_count s' = message_count s + 1
        ∧ is_Some (handlers s' !! ws)
        ∧ printed (drop (length (effects s)) (effects s')) =
            [RawHeader (clock (ticks s)) (message_count s + 1) (client_id h);
             Raw (Text (String.substring 0 200 text
                        +:+ (if (200 <? String.length text)%nat
                             then "..." else EmptyString)))].
Proof.
  intros W Hloads. rewrite (step_receive _ _ _ _ _ _ _ _ _ W).
  eexists. split; [done|]. unfold resume, process.
  cbv beta iota delta [mbind M_bind].
  rewrite show_undecoded, show_raw_text by done.
  destruct args_respond; run_block; unfold set_handlers; simpl;
    (split; [done|]); (split; [by rewrite lookup_insert_eq|]);
    rewrite <- ?app_assoc, drop_app_length; done.
Qed.

End Raw.

(** * The server on concrete runs *)

(** The two messages of the specification, through the decoder and the
    handler. *)
Example gps_message_extracted :
  printed (effects (Sample.after false
                      [Connect 7 Sample.robot;
                       Receive 7 (Text Sample.gps_text)])) =
    [NewConnection (Sample.clock 0) Sample.robot "Client-1";
     Waiting "Client-1";
     MessageHeader (Sample.clock 1) 1 "Client-1";
     Dump Sample.gps_data;
     ExtractedHeader;
     Topic (JStr "/gps");
     Latitude (JFloat (S754_finite false 5539427541665710 (-52)));
     Longitude (JFloat (S754_finite false 5134103575202365 (-50)))].
Proof. vm_compute. reflexivity. Qed.

Example climb_message_extracted :
  printed (effects (Sample.after false
                      [Connect 7 Sample.robot;
                       Receive 7 (Text Sample.climb_text)])) =
    [NewConnection (Sample.clock 0) Sample.robot "Client-1";
     Waiting "Client-1";
     MessageHeader (Sample.clock 1) 1 "Client-1";
     Dump Sample.climb_data;
     ExtractedHeader;
     Topic (JStr "/gps");
     Latitude (JFloat (S754_finite false 4503599627370496 (-52)));
     Longitude (JFloat (S754_finite false 4503599627370496 (-51)));
     Altitude (JInt 50)].
Proof. vm_compute. reflexivity. Qed.

Example hello_world_shown :
  let s := Sample.after false
             [Connect 7 Sample.robot; Receive 7 (Text "hello world")] in
  message_count s = 1
  ∧ is_Some (handlers s !! 7)
  ∧ printed (effects s) =
      [NewConnection (Sample.clock 0) Sample.robot "Client-1";
       Waiting "Client-1";
       RawHeader (Sample.clock 1) 1 "Client-1";
       Raw (Text "hello world")].
Proof. vm_compute. eauto. Qed.

(** C2. With [--respond], the text frame
    [{"op":"publish","topic":"/gps","msg":null}] is received, counted
    and decoded, but gets no acknowledgment: the test for [latitude] in
    [None] raises [TypeError], which ends the handler before the
    acknowledgment is built. *)
Theorem null_msg_not_acknowledged :
  Sample.loads (Text Sample.null_text) = Return Sample.null_data
  ∧ ∃ s, run Sample.loads Sample.clock true Sample.dumpable Sample.print_error
           [Connect 7 Sample.robot; Receive 7 (Text Sample.null_text)]
           initial = Some s
         ∧ message_count s = 1
         ∧ acknowledgments 7 (effects s) = []
         ∧ handlers s !! 7 = None
         ∧ printed (effects s) =
             [NewConnection (Sample.clock 0) Sample.robot "Client-1";
              Waiting "Client-1";
              MessageHeader (Sample.clock 1) 1 "Client-1";
              Dump Sample.null_data;
              Failed (Sample.clock 2) "Client-1" TypeError;
              Disconnected "Client-1" 0].
Proof.
  split; [reflexivity|]. eexists.
  split; [vm_compute; reflexivity|]. repeat split.
Qed.

(** C4. The decoded message [{"op":"publish","msg":5}] does not match
    the telemetry convention, its [msg] being a number; the extraction
    does not pass it over but raises [TypeError] on the test for
    [latitude] in [5], and the handler that received it ends. *)
Theorem scalar_msg_raises :
  (∀ print_error s,
     extract_gps print_error Sample.scalar_data s = (Raise TypeError, s))
  ∧ Sample.loads (Text Sample.scalar_text) = Return Sample.scalar_data
  ∧ ∃ s, run Sample.loads Sample.clock false Sample.dumpable Sample.print_error
           [Connect 7 Sample.robot; Receive 7 (Text Sample.scalar_text)]
           initial = Some s
         ∧ handlers s !! 7 = None
         ∧ step Sample.loads Sample.clock false Sample.dumpable
             Sample.print_error (Receive 7 (Text Sample.gps_text)) s = None
         ∧ printed (effects s) =
             [NewConnection (Sample.clock 0) Sample.robot "Client-1";
              Waiting "Client-1";
              MessageHeader (Sample.clock 1) 1 "Client-1";
              Dump Sample.scalar_data;
              Failed (Sample.clock 2) "Client-1" TypeError;
              Disconnected "Client-1" 0].
Proof.
  split; [done|]. split; [reflexivity|]. eexists.
  split; [vm_compute; reflexivity|]. repeat split.
Qed.

(** C6. The binary frame with the bytes of [hello world] fails to
    decode and is counted, but it is not displayed: the display
    expression raises [TypeError], and the handler ends. *)
Theorem binary_hello_raises :
  Sample.loads (Binary Sample.hello) = Raise JSONDecodeError
  ∧ raw_display (Binary Sample.hello) = Raise TypeError
  ∧ ∃ s, run Sample.loads Sample.clock false Sample.dumpable Sample.print_error
           [Connect 7 Sample.robot; Receive 7 (Binary Sample.hello)]
           initial = Some s
         ∧ message_count s = 1
         ∧ handlers s !! 7 = None
         ∧ printed (effects s) =
             [NewConnection (Sample.clock 0) Sample.robot "Client-1";
              Waiting "Client-1";
              RawHeader (Sample.clock 1) 1 "Client-1";
              Failed (Sample.clock 2) "Client-1" TypeError;
              Disconnected "Client-1" 0].
Proof.
  split; [reflexivity|]. split; [reflexivity|]. eexists.
  split; [vm_compute; reflexivity|]. repeat split.
Qed.

(** C5 as stated fails: after a send that failed the handler is not
    waiting for a next message. *)
Lemma send_failure_stops_reading :
  ¬ ∀ evs ws e s s',
      run Sample.loads Sample.clock true Sample.dumpable Sample.print_error
        evs initial = Some s →
      step Sample.loads Sample.clock true Sample.dumpable Sample.print_error
        (SendRaises ws e) s = Some s' →
      is_Some (waiting ws Reading s').
Proof.
  intros H.
  destruct (H [Connect 7 Sample.robot; Receive 7 (Text "hello world")]
              7 (ConnectionClosed 1006 EmptyString) _ _ eq_refl eq_refl)
    as [h Hh].
  vm_compute in Hh. discriminate.
Qed.



(** C10 as stated fails for bytes that are no text.  On the binary
    frame of the single byte 255 the decoder raises
    [UnicodeDecodeError], which the clause for [JSONDecodeError] does
    not catch: the display expression is not evaluated and no
    [TypeError] is raised.  The handler ends on the error of the
    decoder. *)
Lemma stray_byte_not_displayed :
  Sample.loads (Binary Sample.stray) = Raise UnicodeDecodeError
  ∧ ∃ s, run Sample.loads Sample.clock false Sample.dumpable Sample.print_error
           [Connect 7 Sample.robot; Receive 7 (Binary Sample.stray)]
           initial = Some s
         ∧ message_count s = 1
         ∧ handlers s !! 7 = None
         ∧ printed (effects s) =
             [NewConnection (Sample.clock 0) Sample.robot "Client-1";
              Waiting "Client-1";
              Failed (Sample.clock 1) "Client-1" UnicodeDecodeError;
              Disconnected "Client-1" 0].
Proof.
  split; [reflexivity|]. eexists.
  split; [vm_compute; reflexivity|]. repeat split.
Qed.

(** * The general statements at concrete inputs *)


Lemma message_count_is_received_witness :
  message_count (Sample.after true Sample.busy) = 3
  ∧ numbers Sample.loads Sample.clock true Sample.dumpable Sample.print_error
      Sample.busy initial = [1; 2; 3].
Proof.
  assert (run Sample.loads Sample.clock true Sample.dumpable
            Sample.print_error Sample.busy initial
          = Some (Sample.after true Sample.busy)) as Hrun
    by (vm_compute; reflexivity).
  destruct (message_count_is_received Sample.loads Sample.clock true
              Sample.dumpable Sample.print_error
              Sample.busy _ Hrun) as (Hcount & _ & _ & Hnumbers & _).
  split; [exact Hcount | exact Hnumbers].
Defined.

Lemma send_failure_ends_handler_witness :
  ∃ s', step Sample.loads Sample.clock true Sample.dumpable Sample.print_error
          (SendRaises 7 (ConnectionClosed 1006 EmptyString))
          (Sample.after true
             [Connect 7 Sample.robot; Receive 7 (Text "hello world")])
        = Some s'
        ∧ handlers s' !! 7 = None
        ∧ printed (drop 5 (effects s')) =
            [Closed (Sample.clock 3) "Client-1" 1006 EmptyString;
             Disconnected "Client-1" 0].
Proof.
  destruct (send_failure_ends_handler Sample.loads Sample.clock true
              Sample.dumpable Sample.print_error
              [Connect 7 Sample.robot; Receive 7 (Text "hello world")]
              7 (ConnectionClosed 1006 EmptyString)
              (Sample.after true
                 [Connect 7 Sample.robot; Receive 7 (Text "hello world")])
              {| client_id := "Client-1"; at_await := Sending |})
    as (s' & Hstep & Hh & _ & _ & Hfx & _);
    [vm_compute; reflexivity | vm_compute; reflexivity | reflexivity |].
  exists s'. split; [exact Hstep|]. split.
  - rewrite Hh. reflexivity.
  - rewrite Hfx. reflexivity.
Defined.


Lemma label_from_registry_size_witness :
  ∃ s', step Sample.loads Sample.clock false Sample.dumpable Sample.print_error
          (Connect 7 Sample.robot) initial
        = Some s'
        ∧ handlers s' !! 7 =
            Some {| client_id := "Client-1"; at_await := Reading |}.
Proof.
  destruct (label_from_registry_size Sample.loads Sample.clock false
              Sample.dumpable Sample.print_error)
    as [Hlabel _].
  destruct (Hlabel 7 Sample.robot initial eq_refl) as (s' & Hstep & Hh & _).
  exists s'. split; [exact Hstep | exact Hh].
Defined.

Lemma counted_before_processing_witness :
  ∃ s', step Sample.loads Sample.clock true Sample.dumpable Sample.print_error
          (Receive 7 (Text Sample.null_text))
          (Sample.after true [Connect 7 Sample.robot]) = Some s'
        ∧ message_count s' = 1
        ∧ handlers s' !! 7 = None.
Proof.
  destruct (counted_before_processing Sample.loads Sample.clock true
              Sample.dumpable Sample.print_error
              7 (Text Sample.null_text)
              (Sample.after true [Connect 7 Sample.robot])
              {| client_id := "Client-1"; at_await := Reading |})
    as (_ & _ & _ & s' & Hstep & Hcount & Hraise & _);
    [vm_compute; reflexivity|].
  exists s'. split; [exact Hstep|]. split; [exact Hcount|].
  apply (Hraise TypeError). vm_compute. reflexivity.
Defined.

Lemma binary_text_ends_handler_witness :
  (∃ s', step Sample.loads Sample.clock false Sample.dumpable Sample.print_error
           (Receive 7 (Binary Sample.hello))
           (Sample.after false [Connect 7 Sample.robot]) = Some s'
         ∧ handlers s' !! 7 = None
         ∧ message_count s' = 1)
  ∧ (∃ s', step Sample.loads Sample.clock false Sample.dumpable
             Sample.print_error
             (Receive 7 (Binary Sample.stray))
             (Sample.after false [Connect 7 Sample.robot]) = Some s'
           ∧ handlers s' !! 7 = None
           ∧ printed (drop 2 (effects s')) =
               [Failed (Sample.clock 1) "Client-1" UnicodeDecodeError;
                Disconnected "Client-1" 0]).
Proof.
  destruct (binary_text_ends_handler Sample.loads Sample.clock false
              Sample.dumpable Sample.print_error)
    as (Hbinary & _ & Hstray).
  split.
  - destruct (Hbinary [Connect 7 Sample.robot] 7 Sample.hello
                (Sample.after false [Connect 7 Sample.robot])
                {| client_id := "Client-1"; at_await := Reading |})
      as (_ & s' & Hstep & Hh & _ & Hcount & _);
      [vm_compute; reflexivity | vm_compute; reflexivity | reflexivity |].
    exists s'. split; [exact Hstep|]. split; [exact Hh | exact Hcount].
  - destruct (Hstray [Connect 7 Sample.robot] 7 Sample.stray
                (Sample.after false [Connect 7 Sample.robot])
                {| client_id := "Client-1"; at_await := Reading |})
      as (s' & Hstep & Hh & _ & _ & Hfx);
      [vm_compute; reflexivity | vm_compute; reflexivity | reflexivity |].
    exists s'. split; [exact Hstep|]. split; [exact Hh|].
    rewrite Hfx. reflexivity.
Defined.

(** * Further properties of the handler *)

(** ** What the extraction does with every decoded value *)

(** A decoded value that is not a dict is never extracted and prints
    nothing.  A string without [op] inside it and a list without the
    element [op] are passed over; every other such value ends the
    extraction with [TypeError]: numbers, booleans and [None] at the
    first test, a string or a list that holds [op] at [data['op']]. *)
Theorem extract_gps_not_a_dict print_error data s :
  (∀ fields, data ≠ JObj fields) →
  extract_gps print_error data s =
    (match Py.contains "op" data with
     | Return false => Return ()
     | _ => Raise TypeError
     end, s).
Proof.
  intros Hdict. unfold extract_gps.
  destruct data as [|b|n|f|t|items|fields]; try done; run_block.
  - by destruct (Py.substring_of "op" t).
  - by destruct (existsb _ items).
  - by destruct (Hdict fields).
Qed.

(** When [op] is [publish] and [msg] is present but is not a dict, the
    tests for the coordinates decide.  A [msg] on which a test raises
    (a number, a boolean, [None]) ends the extraction with [TypeError]
    before anything is printed; a string or a list that lacks a
    coordinate is passed over; a string or a list that holds both gets
    the heading printed, and then the topic when [print] can write it,
    after which [msg['latitude']] raises [TypeError]; when [print]
    cannot write the topic, its exception ends the extraction after
    the heading. *)
Theorem extract_gps_msg_not_a_dict print_error fields op msg s :
  Py.lookup "op" fields = Some op →
  Py.eq_str op "publish" = true →
  Py.lookup "msg" fields = Some msg →
  (∀ inner, msg ≠ JObj inner) →
  extract_gps print_error (JObj fields) s =
    match Py.contains "latitude" msg, Py.contains "longitude" msg with
    | Return true, Return true =>
        match print_error (default (JStr "N/A") (Py.lookup "topic" fields)) with
        | None =>
            (Raise TypeError,
             emit [Print ExtractedHeader;
                   Print (Topic (default (JStr "N/A")
                                   (Py.lookup "topic" fields)))] s)
        | Some u => (Raise (raised u), emit [Print ExtractedHeader] s)
        end
    | Return _, Return _ => (Return (), s)
    | _, _ => (Raise TypeError, s)
    end.
Proof.
  intros Hop Hpub Hmsg Hdict.
  unfold extract_gps, print_value, Py.getitem, Py.get, Py.contains.
  rewrite (has_key_true _ _ _ Hop), (has_key_true _ _ _ Hmsg), Hop, Hmsg.
  run_block. rewrite Hpub. run_block.
  destruct msg as [|b|n|f|t|items|inner]; try done; run_block.
  - destruct (Py.substring_of "latitude" t); [|done].
    destruct (Py.substring_of "longitude" t); [|done].
    run_block. destruct (print_error _); run_block; by rewrite ?emit_emit.
  - destruct (existsb _ items); [|done].
    destruct (existsb _ items); [|done].
    run_block. destruct (print_error _); run_block; by rewrite ?emit_emit.
  - by destruct (Hdict inner).
Qed.

(** The extraction prints and returns only for the messages of the
    convention: when it returns normally and has printed something,
    the decoded value is a dict whose [op] equals [publish] and whose
    [msg] is a dict with both coordinates. *)
Theorem extract_gps_only_telemetry print_error data s s' :
  extract_gps print_error data s = (Return (), s') →
  s' ≠ s →
  ∃ fields op msg,
    data = JObj fields
    ∧ Py.lookup "op" fields = Some op
    ∧ Py.eq_str op "publish" = true
    ∧ Py.lookup "msg" fields = Some (JObj msg)
    ∧ Py.has_key "latitude" msg = true
    ∧ Py.has_key "longitude" msg = true.
Proof.
  intros Hrun Hprinted.
  assert (∀ r, (r, s) = (Return (), s') → False) as Hsame
    by (intros r [= _ <-]; done).
  revert Hrun.
  unfold extract_gps, print_value, Py.contains, Py.getitem, Py.get, Py.has_key.
  destruct data as [|b|n|f|t|items|fields]; run_block;
    try solve [intros Hrun; by apply Hsame in Hrun].
  - destruct (Py.substring_of "op" t); run_block; intros Hrun;
      by apply Hsame in Hrun.
  - destruct (existsb _ items); run_block; intros Hrun;
      by apply Hsame in Hrun.
  - destruct (Py.lookup "op" fields) as [op|] eqn:Hop; run_block;
      [|intros Hrun; by apply Hsame in Hrun].
    destruct (Py.eq_str op "publish") eqn:Hpub; run_block;
      [|intros Hrun; by apply Hsame in Hrun].
    destruct (Py.lookup "msg" fields) as [msg|] eqn:Hmsg; run_block;
      [|intros Hrun; by apply Hsame in Hrun].
    destruct msg as [|b|n|f|t|items|inner]; run_block;
      try solve [intros Hrun; by apply Hsame in Hrun].
    + destruct (Py.substring_of "latitude" t); run_block;
        [|intros Hrun; by apply Hsame in Hrun].
      destruct (Py.substring_of "longitude" t); run_block;
        [|intros Hrun; by apply Hsame in Hrun].
      by destruct (print_error _).
    + destruct (existsb _ items); run_block;
        [|intros Hrun; by apply Hsame in Hrun].
      destruct (existsb _ items); run_block;
        [|intros Hrun; by apply Hsame in Hrun].
      by destruct (print_error _).
    + destruct (Py.lookup "latitude" inner) eqn:Hlat; run_block;
        [|intros Hrun; by apply Hsame in Hrun].
      destruct (Py.lookup "longitude" inner) eqn:Hlon; run_block;
        [|intros Hrun; by apply Hsame in Hrun].
      intros _. exists fields, op, inner. unfold Py.has_key.
      by rewrite Hlat, Hlon.
Qed.

(** ** What one connection does to the others, and to the registry *)

Lemma ids_sent_app fx fx' : ids_sent (fx ++ fx') = ids_sent fx ++ ids_sent fx'.
Proof. unfold ids_sent. apply omap_app. Qed.

Lemma ids_sent_printed lines : ids_sent (Print <$> lines) = [].
Proof. induction lines as [|l lines IH]; [done|]. by simpl. Qed.

Lemma label_inj n m : label n = label m → n = m.
Proof.
  unfold label. intros H. apply (inj (String.app "Client-")) in H.
  apply (inj pretty) in H. lia.
Qed.

Section Handlers.

Variable json_loads : frame → outcome json.
Variable clock : nat → datetime.
Variable args_respond : bool.
Variable dumpable : json → bool.
Variable print_error : json → option unwritable.

#[local] Abbreviation Step :=
  (step json_loads clock args_respond dumpable print_error).
#[local] Abbreviation Run :=
  (run json_loads clock args_respond dumpable print_error).
#[local] Abbreviation Iteration :=
  (iteration json_loads clock args_respond dumpable print_error).
#[local] Abbreviation Process :=
  (process json_loads clock args_respond dumpable print_error).

(** Whatever happens on one connection, a failure included, the
    handlers of the other connections stay as they are and stay
    registered. *)
Theorem step_leaves_others ev s s' ws :
  Step ev s = Some s' →
  ws ≠ subject ev →
  handlers s' !! ws = handlers s !! ws
  ∧ (ws ∈ connected_clients s' ↔ ws ∈ connected_clients s).
Proof.
  intros Hstep Hne.
  destruct (step_shape _ _ _ _ _ _ _ _ Hstep)
    as [(id & _ & -> & ->)|[(h & p & _ & -> & ->)|(h & _ & -> & ->)]].
  - rewrite lookup_insert_ne by done. split; [done | set_solver].
  - by rewrite lookup_insert_ne.
  - rewrite lookup_delete_ne by done. split; [done | set_solver].
Qed.

(** In every state the server reaches, the registry holds exactly the
    connections whose handler is running, so its size is the number of
    running handlers. *)
Theorem registry_is_running_handlers evs s :
  Run evs initial = Some s →
  (∀ ws, ws ∈ connected_clients s ↔ is_Some (handlers s !! ws))
  ∧ size (connected_clients s) = size (handlers s).
Proof.
  intros Hrun. pose proof (reachable_consistent _ _ _ _ _ _ _ Hrun) as Hs.
  unfold consistent in Hs. rewrite <- Hs. split.
  - intros ws. apply elem_of_dom.
  - apply size_dom.
Qed.

(** Two connections get the same label exactly when the registry had
    the same size at the moments they were accepted. *)
Theorem same_label_iff_same_size ws1 ws2 address1 address2 s1 s2 s1' s2' h1 h2 :
  step json_loads clock args_respond dumpable print_error
    (Connect ws1 address1) s1 = Some s1' →
  step json_loads clock args_respond dumpable print_error
    (Connect ws2 address2) s2 = Some s2' →
  handlers s1' !! ws1 = Some h1 →
  handlers s2' !! ws2 = Some h2 →
  client_id h1 = client_id h2
  ↔ size (connected_clients s1) = size (connected_clients s2).
Proof.
  unfold step.
  destruct (handlers s1 !! ws1); [done|].
  destruct (handlers s2 !! ws2); [done|].
  rewrite !enter_spec. intros [= <-] [= <-]. unfold set_handlers; simpl.
  rewrite !lookup_insert_eq. intros [= <-] [= <-]. simpl.
  split; [apply label_inj | by intros ->].
Qed.

(** The [except] and [finally] clauses of a registered connection let
    no [Exception] out of the handler, and the [remove] of the
    [finally] clause does not raise [KeyError]: the handler returns
    normally, except for an exception such as [CancelledError] that is
    not an [Exception], which goes on after the cleanup.  In both cases
    the connection is out of the registry afterwards. *)
Theorem leave_contains_exceptions ws id body s :
  ws ∈ connected_clients s →
  (leave clock ws id body s).1 =
    match body with
    | Return _ => Return ()
    | Raise e => if is_Exception e then Return () else Raise e
    end
  ∧ ws ∉ connected_clients (leave clock ws id body s).2.
Proof.
  intros Hin. rewrite leave_registry. split; [|set_solver].
  rewrite leave_spec by done.
  destruct body as [[]|e]; [|destruct e]; done.
Qed.

Lemma finish_last ws h body s :
  ws ∈ connected_clients s →
  last (effects (finish clock ws h body s))
  = Some (Print (Disconnected (client_id h)
                   (size (connected_clients (finish clock ws h body s))))).
Proof.
  intros Hin. rewrite finish_effects by done.
  destruct (finish_spec clock ws h body s) as (-> & _ & _).
  rewrite size_without by done.
  by rewrite app_assoc, last_snoc.
Qed.

(** When a handler ends, in whatever way, the last line it prints
    gives its label and the number of connections that remain, and
    this number is the size of the registry and the number of handlers
    still running. *)
Theorem exit_reports_remaining evs ev s s' ws h :
  Run evs initial = Some s →
  Step ev s = Some s' →
  handlers s !! ws = Some h →
  handlers s' !! ws = None →
  last (effects s')
  = Some (Print (Disconnected (client_id h) (size (handlers s')))).
Proof.
  intros Hrun Hstep Hbefore Hafter.
  pose proof (reachable_consistent _ _ _ _ _ _ _ Hrun) as Hs.
  pose proof (step_consistent _ _ _ _ _ _ _ _ Hs Hstep) as Hs'.
  destruct (step_ends _ _ _ _ _ _ _ _ _ _ Hs Hstep Hbefore Hafter)
    as (Hws & Hin & _).
  rewrite <- size_dom, Hs'. revert Hstep Hafter.
  destruct ev as [w addr|w message|w|w e|w|w e]; cbn [subject] in Hws;
    subst w; unfold step.
  - by rewrite Hbefore.
  - destruct (waiting ws Reading s) as [h'|] eqn:W; [|done].
    apply (waiting_Some clock) in W as [W _].
    assert (h' = h) as -> by congruence. intros [= <-]. unfold resume.
    destruct (steady_iteration json_loads clock args_respond dumpable
                print_error
                ws (client_id h) message s) as [Hcc _].
    destruct (Iteration ws (client_id h) message s) as [[p|e] s1];
      cbn [fst snd] in *.
    + unfold set_handlers; simpl. by rewrite lookup_insert_eq.
    + intros _. apply finish_last. by rewrite Hcc.
  - destruct (waiting ws Reading s) as [h'|] eqn:W; [|done].
    apply (waiting_Some clock) in W as [W _].
    assert (h' = h) as -> by congruence. intros [= <-] _.
    by apply finish_last.
  - destruct (waiting ws Reading s) as [h'|] eqn:W; [|done].
    apply (waiting_Some clock) in W as [W _].
    assert (h' = h) as -> by congruence. intros [= <-] _.
    by apply finish_last.
  - destruct (waiting ws Sending s) as [h'|] eqn:W; [|done].
    apply (waiting_Some clock) in W as [W _].
    assert (h' = h) as -> by congruence. intros [= <-]. unfold resume.
    unfold sent. run_block. unfold set_handlers; simpl.
    by rewrite lookup_insert_eq.
  - destruct (waiting ws Sending s) as [h'|] eqn:W; [|done].
    apply (waiting_Some clock) in W as [W _].
    assert (h' = h) as -> by congruence. intros [= <-] _.
    by apply finish_last.
Qed.

(** ** What is sent *)

Lemma leave_prints ws id body s :
  ∃ lines, effects (leave clock ws id body s).2 = effects s ++ (Print <$> lines).
Proof.
  unfold leave, try_finally, excepted, cleanup, remove_client,
    len_connected_clients.
  destruct body as [[]|e]; [|destruct e]; run_block; unfold now;
    run_block; destruct (decide _); unfold emit; simpl;
    rewrite <- ?app_assoc;
    first [ by exists []; rewrite app_nil_r
          | by eexists [_] | by eexists [_; _] ].
Qed.

(** The effects of one transition: lines, and after them the
    acknowledgment of the message just counted when the transition
    received a message under [--respond] and showed it without error. *)
Lemma step_effects ev s s' :
  Step ev s = Some s' →
  ∃ lines acks,
    effects s' = effects s ++ (Print <$> lines) ++ acks
    ∧ (acks = []
       ∨ (args_respond = true ∧ is_receive ev = true
          ∧ at_await <$> handlers s' !! subject ev = Some Sending
          ∧ ∃ t, acks = [Send (subject ev) (response (message_count s') t)])).
Proof.
  destruct ev as [ws addr|ws message|ws|ws e|ws|ws e]; unfold step;
    cbn [subject is_receive].
  - destruct (handlers s !! ws); [done|]. rewrite enter_spec. intros [= <-].
    eexists [_; _], []. split; [done | by left].
  - destruct (waiting ws Reading s) as [h|]; [|done]. intros [= <-].
    unfold resume. rewrite iteration_counted.
    destruct (process_spec json_loads clock args_respond dumpable print_error
                ws (client_id h)
                message (counted s))
      as (lines & reads & [[_ ->]|(e & _ & ->)]).
    + destruct args_respond.
      * exists lines, [Send ws (response (message_count (counted s))
                                  (clock (ticks (printing lines reads
                                                   (counted s)))))].
        split; [by unfold set_handlers, emit; simpl; rewrite <- app_assoc|].
        right. split; [done|]. split; [done|]. split; [|by eexists].
        unfold set_handlers; simpl. by rewrite lookup_insert_eq.
      * exists lines, []. split; [by rewrite app_nil_r | by left].
    + unfold finish.
      destruct (leave_prints ws (client_id h) (Raise e)
                  (printing lines reads (counted s))) as (lines' & E).
      exists (lines ++ lines'), []. split; [|by left].
      unfold set_handlers; simpl. rewrite E. simpl.
      by rewrite app_nil_r, fmap_app, app_assoc.
  - destruct (waiting ws Reading s) as [h|]; [|done]. intros [= <-].
    destruct (leave_prints ws (client_id h) (Return ()) s) as (lines & E).
    exists lines, []. split; [by rewrite app_nil_r | by left].
  - destruct (waiting ws Reading s) as [h|]; [|done]. intros [= <-].
    destruct (leave_prints ws (client_id h) (Raise e) s) as (lines & E).
    exists lines, []. split; [by rewrite app_nil_r | by left].
  - destruct (waiting ws Sending s) as [h|]; [|done]. intros [= <-].
    exists [ResponseSent (client_id h)], []. split; [done | by left].
  - destruct (waiting ws Sending s) as [h|]; [|done]. intros [= <-].
    destruct (leave_prints ws (client_id h) (Raise e) s) as (lines & E).
    exists lines, []. split; [by rewrite app_nil_r | by left].
Qed.

Lemma strongly_sorted_snoc (l : list Z) x :
  StronglySorted Z.lt l → Forall (λ y, (y < x)%Z) l →
  StronglySorted Z.lt (l ++ [x]).
Proof.
  intros Hsorted Hall. apply StronglySorted_app_2; [|done | repeat constructor].
  intros y z Hy Hz. apply list_elem_of_singleton in Hz as ->.
  by eapply Forall_forall in Hall.
Qed.

(** The identifiers acknowledged in a run, over all connections, are
    strictly increasing, hence no identifier is acknowledged twice, and
    each of them is the number of a message that was received: it lies
    between 1 and the counter. *)
Theorem acknowledged_ids_increase evs s :
  Run evs initial = Some s →
  StronglySorted Z.lt (ids_sent (effects s))
  ∧ Forall (λ n, (1 ≤ n ≤ Z.of_nat (message_count s))%Z) (ids_sent (effects s))
  ∧ length (ids_sent (effects s)) ≤ received evs.
Proof.
  assert (∀ evs s0 s,
            Run evs s0 = Some s →
            StronglySorted Z.lt (ids_sent (effects s0)) →
            Forall (λ n, (1 ≤ n ≤ Z.of_nat (message_count s0))%Z)
              (ids_sent (effects s0)) →
            StronglySorted Z.lt (ids_sent (effects s))
            ∧ Forall (λ n, (1 ≤ n ≤ Z.of_nat (message_count s))%Z)
                (ids_sent (effects s))
            ∧ length (ids_sent (effects s))
              ≤ length (ids_sent (effects s0)) + received evs) as Hgen.
  { clear evs s. induction evs as [|ev evs IH]; intros s0 s.
    - intros [= <-] Hsorted Hall. split; [done|]. split; [done|]. simpl. lia.
    - rewrite run_cons. intros (s1 & Hstep & Hrun) Hsorted Hall.
      pose proof (step_message_count _ _ _ _ _ _ _ _ Hstep) as Hcount.
      destruct (step_effects _ _ _ Hstep)
        as (lines & acks & Hfx & [->|(_ & Hrecv & _ & t & ->)]).
      + rewrite app_nil_r in Hfx.
        destruct (IH s1 s Hrun) as (? & ? & ?).
        * by rewrite Hfx, ids_sent_app, ids_sent_printed, app_nil_r.
        * rewrite Hfx, ids_sent_app, ids_sent_printed, app_nil_r.
          eapply Forall_impl; [done|]. simpl. intros; lia.
        * split; [done|]. split; [done|].
          rewrite Hfx, ids_sent_app, ids_sent_printed, app_nil_r in *.
          simpl. lia.
      + rewrite Hrecv in Hcount.
        assert (ids_sent (effects s1)
                = ids_sent (effects s0) ++ [Z.of_nat (message_count s1)])
          as Hids.
        { rewrite Hfx, !ids_sent_app, ids_sent_printed. done. }
        destruct (IH s1 s Hrun) as (? & ? & ?).
        * rewrite Hids. apply strongly_sorted_snoc; [done|].
          eapply Forall_impl; [done|]. simpl. intros; lia.
        * rewrite Hids. apply Forall_app. split.
          -- eapply Forall_impl; [done|]. simpl. intros; lia.
          -- repeat constructor; lia.
        * split; [done|]. split; [done|].
          rewrite Hids, length_app in *. simpl in *. rewrite Hrecv. lia. }
  intros Hrun. destruct (Hgen evs initial s Hrun) as (? & ? & ?);
    [constructor | constructor | done].
Qed.

Lemma step_stays_reading ev s s' :
  args_respond = false →
  Step ev s = Some s' → all_reading s → all_reading s'.
Proof.
  intros Hoff Hstep Hall ws h.
  assert (∀ w (m : gmap nat handler) id,
            (∀ ws h, m !! ws = Some h → at_await h = Reading) →
            <[w := {| client_id := id; at_await := Reading |}]> m !! ws
            = Some h → at_await h = Reading) as Hinsert.
  { intros w m id Hm Hh. apply lookup_insert_Some in Hh as [[_ <-]|[_ Hh]];
      [done | by eapply Hm]. }
  assert (∀ w (m : gmap nat handler),
            (∀ ws h, m !! ws = Some h → at_await h = Reading) →
            delete w m !! ws = Some h → at_await h = Reading) as Hdelete.
  { intros w m Hm Hh. apply lookup_delete_Some in Hh as [_ Hh].
    by eapply Hm. }
  revert Hstep. destruct ev as [w a|w m|w|w e|w|w e]; unfold step.
  - destruct (handlers s !! w); [done|]. rewrite enter_spec. intros [= <-].
    by apply Hinsert.
  - destruct (waiting w Reading s) as [h1|]; [|done]. intros [= <-].
    unfold resume. rewrite iteration_counted.
    destruct (process_spec json_loads clock args_respond dumpable print_error
                w (client_id h1)
                m (counted s)) as (lines & reads & [[_ ->]|(e & _ & ->)]).
    + rewrite Hoff. by apply Hinsert.
    + destruct (finish_spec clock w h1 (Raise e)
                  (printing lines reads (counted s))) as (_ & _ & ->).
      by apply Hdelete.
  - destruct (waiting w Reading s) as [h1|]; [|done]. intros [= <-].
    destruct (finish_spec clock w h1 (Return ()) s) as (_ & _ & ->).
    by apply Hdelete.
  - destruct (waiting w Reading s) as [h1|]; [|done]. intros [= <-].
    destruct (finish_spec clock w h1 (Raise e) s) as (_ & _ & ->).
    by apply Hdelete.
  - destruct (waiting w Sending s) as [h1|] eqn:W; [|done].
    apply (waiting_Some clock) in W as [W1 W2].
    by rewrite (Hall _ _ W1) in W2.
  - destruct (waiting w Sending s) as [h1|] eqn:W; [|done].
    apply (waiting_Some clock) in W as [W1 W2].
    by rewrite (Hall _ _ W1) in W2.
Qed.

End Handlers.

Lemma printed_app fx fx' : printed (fx ++ fx') = printed fx ++ printed fx'.
Proof. unfold printed. apply omap_app. Qed.

Lemma printed_prints lines : printed (Print <$> lines) = lines.
Proof. induction lines as [|l lines IH]; [done|]. simpl. f_equal. exact IH. Qed.

(** Without [--respond] the server sends nothing: every effect of a run
    is a printed line, and every handler waits for a message, never for
    a send. *)
Theorem silent_without_respond json_loads clock dumpable print_error evs s :
  run json_loads clock false dumpable print_error evs initial = Some s →
  effects s = Print <$> printed (effects s)
  ∧ (∀ ws, acknowledgments ws (effects s) = [])
  ∧ all_reading s.
Proof.
  assert (∀ evs s0 s,
            run json_loads clock false dumpable print_error evs s0 = Some s →
            effects s0 = Print <$> printed (effects s0) →
            all_reading s0 →
            effects s = Print <$> printed (effects s) ∧ all_reading s)
    as Hgen.
  { clear evs s. induction evs as [|ev evs IH]; intros s0 s.
    - by intros [= <-].
    - rewrite run_cons. intros (s1 & Hstep & Hrun) Hfx Hall.
      apply (IH s1 s Hrun).
      + destruct (step_effects _ _ _ _ _ _ _ _ Hstep)
          as (lines & acks & E & [->|(? & _)]); [|done].
        rewrite E, app_nil_r, printed_app, printed_prints, fmap_app.
        by rewrite <- Hfx.
      + by eapply step_stays_reading. }
  intros Hrun. destruct (Hgen evs initial s Hrun) as [Hfx Hall];
    [done | by intros ws h | ].
  split; [done|]. split; [|done].
  intros ws. rewrite Hfx. apply acknowledgments_printed.
Qed.


(** ** The raw display *)

Lemma length_append (a b : str) :
  String.length (a +:+ b) = String.length a + String.length b.
Proof. induction a as [|c a IH]; simpl; [done | by rewrite IH]. Qed.

(** A text payload of at most 200 characters is displayed as it is; a
    longer one as its first 200 characters followed by three dots, 203
    characters in all.  The display of a text never raises. *)
Theorem raw_display_of_text text :
  ∃ shown,
    raw_display (Text text) = Return (Text shown)
    ∧ String.length shown ≤ 203
    ∧ (String.length text ≤ 200 → shown = text)
    ∧ (200 < String.length text →
       shown = String.substring 0 200 text +:+ "..."
       ∧ String.length shown = 203).
Proof.
  unfold raw_display, Frame.add, Frame.slice_to, Frame.len.
  destruct (substring_prefix 200 text) as (rest & _ & Hlen).
  destruct (200 <? String.length text)%nat eqn:Hlong;
    (eexists; split; [done|]).
  - apply Nat.ltb_lt in Hlong. rewrite length_append, Hlen.
    change (String.length "...") with 3.
    split; [lia|]. split; [lia|]. intros _. split; [done | lia].
  - apply Nat.ltb_ge in Hlong. rewrite substring_all by done.
    assert (text +:+ EmptyString = text) as ->.
    { clear. induction text as [|c text IH]; [done|].
      change (String c (text +:+ EmptyString) = String c text).
      by rewrite IH. }
    split; [lia|]. split; [done | lia].
Qed.

(** * The banner and the script *)

Lemma prefix_colons_has_colon addr :
  String.prefix "::" addr = true → Py.substring_of ":" addr = true.
Proof.
  destruct addr as [|c addr]; [done|].
  cbn [String.prefix Py.substring_of].
  destruct (Ascii.ascii_dec ":" c); [|done].
  intros _. by destruct addr.
Qed.

(** An address is listed exactly when it is not the text [127.0.0.1]
    and has no colon in it; the test on the prefix [::] excludes
    nothing that the test on the colon does not exclude. *)
Theorem wanted_iff addr :
  Banner.wanted addr = true
  ↔ addr ≠ "127.0.0.1" ∧ Py.substring_of ":" addr = false.
Proof.
  unfold Banner.wanted. rewrite !andb_true_iff, !negb_true_iff.
  rewrite String.eqb_neq. split.
  - by intros [[? ?] ?].
  - intros [? Hcolon]. split; [split; [done|] | done].
    destruct (String.prefix "::" addr) eqn:Hprefix; [|done].
    apply prefix_colons_has_colon in Hprefix. congruence.
Qed.

Lemma listed_app lines lines' :
  Banner.listed (lines ++ lines') = Banner.listed lines ++ Banner.listed lines'.
Proof. unfold Banner.listed. apply omap_app. Qed.

Lemma listed_urls addresses port :
  Banner.listed ((λ addr, Banner.Url addr port) <$> addresses) = addresses.
Proof.
  induction addresses as [|a addresses IH]; [done|]. simpl. f_equal. exact IH.
Qed.

Lemma listed_listing addresses port :
  Banner.listed (Banner.listing addresses port) = Banner.sorted_set addresses.
Proof.
  destruct addresses as [|a addresses]; [done|].
  unfold Banner.listing. apply listed_urls.
Qed.

Lemma sorted_set_spec addresses :
  StronglySorted String.le (Banner.sorted_set addresses)
  ∧ NoDup (Banner.sorted_set addresses)
  ∧ ∀ addr, addr ∈ Banner.sorted_set addresses ↔ addr ∈ addresses.
Proof.
  unfold Banner.sorted_set. split; [apply StronglySorted_merge_sort; apply _|].
  split.
  - rewrite merge_sort_Permutation. apply NoDup_remove_dups.
  - intros addr. rewrite merge_sort_Permutation. apply elem_of_remove_dups.
Qed.

(** The addresses that the banner lists, whatever the network answers. *)
Lemma listed_print_server_info net host port :
  ∃ addresses,
    Banner.listed (Banner.print_server_info net host port).1
    = Banner.sorted_set addresses
    ∧ ∀ addr, addr ∈ addresses →
        ∃ hostname, Banner.gethostname net = Banner.Got hostname
          ∧ (addr ∈ Banner.collect net hostname
             ∨ (Banner.collect net hostname = []
                ∧ Banner.socket_socket net = None
                ∧ Banner.getsockname net = Banner.Got addr)).
Proof.
  unfold Banner.print_server_info, Banner.network_info, Banner.probe.
  destruct (Banner.gethostname net) as [hostname|e].
  - destruct (Banner.collect net hostname) as [|a found] eqn:Hfound.
    + destruct (Banner.socket_socket net) as [e|].
      * exists []. split; [destruct (Banner.is_Exception e); reflexivity|].
        intros addr Hin. by apply elem_of_nil in Hin.
      * destruct (Banner.getsockname net) as [addr|e].
        -- exists [addr]. split; [reflexivity|]. intros a Ha.
           apply list_elem_of_singleton in Ha as ->. exists hostname. auto.
        -- exists []. split; [reflexivity|]. intros addr Hin.
           by apply elem_of_nil in Hin.
    + exists (a :: found). split.
      * cbn [fst]. rewrite !listed_app.
        change (Banner.Hostname hostname :: Banner.listing (a :: found) port)
          with ([Banner.Hostname hostname] ++ Banner.listing (a :: found) port).
        rewrite listed_app, listed_listing.
        change (Banner.listed [Banner.Title; Banner.ListeningOn port;
                               Banner.AddressesHeading]) with (@nil string).
        change (Banner.listed [Banner.Hostname hostname]) with (@nil string).
        change (Banner.listed [Banner.PressCtrlC; Banner.Rule])
          with (@nil string).
        by rewrite app_nil_r.
      * intros addr Hin. exists hostname. split; [done|].
        left. by rewrite Hfound.
  - exists []. split; [destruct (Banner.is_Exception e); reflexivity|].
    intros addr Hin. by apply elem_of_nil in Hin.
Qed.

(** The addresses of the banner are listed in ascending order, each
    once; every one of them is either an address of the host name
    that passed the filter, or - only when none passed - the address
    of the probing socket. *)
Theorem banner_addresses_sorted net host port :
  StronglySorted String.le
    (Banner.listed (Banner.print_server_info net host port).1)
  ∧ NoDup (Banner.listed (Banner.print_server_info net host port).1)
  ∧ ∀ addr,
      addr ∈ Banner.listed (Banner.print_server_info net host port).1 →
      ∃ hostname, Banner.gethostname net = Banner.Got hostname
        ∧ ((∃ infos, Banner.getaddrinfo net hostname = Banner.Got infos
                     ∧ addr ∈ infos
                     ∧ addr ≠ "127.0.0.1"
                     ∧ Py.substring_of ":" addr = false)
           ∨ (Banner.collect net hostname = []
              ∧ Banner.getsockname net = Banner.Got addr)).
Proof.
  destruct (listed_print_server_info net host port) as (addresses & -> & Hfrom).
  destruct (sorted_set_spec addresses) as (Hsorted & Hnodup & Hin).
  split; [done|]. split; [done|]. intros addr Haddr.
  apply Hin, Hfrom in Haddr as (hostname & Hname & [Hc|(Hc & _ & Hp)]).
  - exists hostname. split; [done|]. left. unfold Banner.collect in Hc.
    destruct (Banner.getaddrinfo net hostname) as [infos|e];
      [|by apply elem_of_nil in Hc].
    exists infos. split; [done|].
    apply list_elem_of_In, filter_In in Hc as [Hc Hw].
    apply list_elem_of_In in Hc.
    apply andb_true_iff in Hw as [Hw Hcolon].
    apply andb_true_iff in Hw as [Hw _].
    apply negb_true_iff in Hw, Hcolon. by apply String.eqb_neq in Hw.
  - exists hostname. auto.
Qed.

(** When the host name resolves to at least one address that passes
    the filter, the banner is complete, lists exactly the addresses
    that pass, and is made without the probing socket: whatever the
    creation of the socket and the probe would give, the banner is the
    same. *)
Theorem banner_lists_resolved_addresses net host port hostname infos :
  Banner.gethostname net = Banner.Got hostname →
  Banner.getaddrinfo net hostname = Banner.Got infos →
  (∃ addr, addr ∈ infos ∧ Banner.wanted addr = true) →
  (Banner.print_server_info net host port).2 = None
  ∧ (∀ addr, addr ∈ Banner.listed (Banner.print_server_info net host port).1
             ↔ addr ∈ infos ∧ Banner.wanted addr = true)
  ∧ ∀ created probed,
      Banner.print_server_info
        {| Banner.gethostname := Banner.gethostname net;
           Banner.getaddrinfo := Banner.getaddrinfo net;
           Banner.socket_socket := created;
           Banner.getsockname := probed |} host port
      = Banner.print_server_info net host port.
Proof.
  intros Hname Hinfos (a & Ha & Hwanted).
  assert (∀ addr, addr ∈ List.filter Banner.wanted infos
                  ↔ addr ∈ infos ∧ Banner.wanted addr = true) as Hfilter.
  { intros addr. by rewrite !list_elem_of_In, filter_In. }
  unfold Banner.print_server_info, Banner.network_info, Banner.collect.
  cbn [Banner.gethostname Banner.getaddrinfo]. rewrite Hname, Hinfos.
  destruct (List.filter Banner.wanted infos) as [|b found] eqn:Hfound.
  { assert (a ∈ @nil string) as Hnil by (by apply Hfilter).
    by apply elem_of_nil in Hnil. }
  split; [done|]. split; [|done].
  intros addr. cbn [fst]. rewrite <- Hfilter, !listed_app.
  change (Banner.Hostname hostname :: Banner.listing (b :: found) port)
    with ([Banner.Hostname hostname] ++ Banner.listing (b :: found) port).
  rewrite listed_app, listed_listing.
  change (Banner.listed [Banner.Title; Banner.ListeningOn port;
                         Banner.AddressesHeading]) with (@nil string).
  change (Banner.listed [Banner.Hostname hostname]) with (@nil string).
  change (Banner.listed [Banner.PressCtrlC; Banner.Rule]) with (@nil string).
  rewrite app_nil_r. apply sorted_set_spec.
Qed.

(** When no address of the host name passes the filter - also when
    [getaddrinfo] raises, whatever it raises - and the socket can be
    created, the banner shows the address of the probing socket as it
    is, unfiltered, or the line that no address could be determined
    when the probe raises, whatever it raises. *)
Theorem banner_falls_back_on_probe net host port hostname :
  Banner.gethostname net = Banner.Got hostname →
  Banner.collect net hostname = [] →
  Banner.socket_socket net = None →
  Banner.print_server_info net host port =
    ([Banner.Title; Banner.ListeningOn port; Banner.AddressesHeading;
      Banner.Hostname hostname;
      match Banner.getsockname net with
      | Banner.Got addr => Banner.Url addr port
      | Banner.Raised _ => Banner.Undetermined
      end;
      Banner.PressCtrlC; Banner.Rule], None).
Proof.
  intros Hname Hnone Hsocket.
  unfold Banner.print_server_info, Banner.network_info, Banner.probe.
  rewrite Hname, Hnone, Hsocket.
  by destruct (Banner.getsockname net) as [addr|e].
Qed.

(** No [Exception] leaves [print_server_info].  It returns with a
    banner that starts with the three heading lines and ends with the
    two closing lines, or it is left by an exception that is not an
    [Exception] and that [gethostname] or the creation of the socket
    raised; what [getaddrinfo] and the probe raise never leaves it.  An
    [Exception] of [gethostname] is reported in the banner. *)
Theorem banner_contains_exceptions net host port :
  match Banner.print_server_info net host port with
  | (lines, None) =>
      ∃ middle,
        lines = [Banner.Title; Banner.ListeningOn port; Banner.AddressesHeading]
                ++ middle ++ [Banner.PressCtrlC; Banner.Rule]
        ∧ ∀ e, Banner.gethostname net = Banner.Raised e →
               middle = [Banner.NetworkError e]
  | (lines, Some e) =>
      Banner.is_Exception e = false
      ∧ (Banner.gethostname net = Banner.Raised e
         ∨ Banner.socket_socket net = Some e)
      ∧ Banner.PressCtrlC ∉ lines
  end.
Proof.
  unfold Banner.print_server_info, Banner.network_info, Banner.probe.
  destruct (Banner.gethostname net) as [hostname|e].
  - destruct (Banner.collect net hostname) as [|a found].
    + destruct (Banner.socket_socket net) as [e|].
      * destruct (Banner.is_Exception e) eqn:He.
        -- by exists [Banner.Hostname hostname; Banner.NetworkError e].
        -- split; [done|]. split; [by right|]. set_solver.
      * destruct (Banner.getsockname net) as [addr|e].
        -- by exists [Banner.Hostname hostname; Banner.Url addr port].
        -- by exists [Banner.Hostname hostname; Banner.Undetermined].
    + exists (Banner.Hostname hostname
              :: Banner.listing (a :: found) port).
      split; [|done]. by rewrite <- app_comm_cons.
  - destruct (Banner.is_Exception e) eqn:He.
    + exists [Banner.NetworkError e]. split; [done|]. by intros e' [= <-].
    + split; [done|]. split; [by left | set_solver].
Qed.

(** When the command line is accepted, the script always ends with
    the shutdown line.  Before it comes the interrupt line, when the
    run was interrupted from the keyboard (also during the banner, in
    which case the server was not started), or the error by which the
    server ended.  Such an error follows a complete banner: the banner,
    with its line on the listening port, is printed before the server
    binds, so it stands above the error of a bind that failed.  When
    [parse_args] exits instead ([-h], an option it does not know, a
    port that is no integer), the script prints none of its lines, the
    shutdown line included, and ends with the status of the exit. *)
Theorem script_reports_and_shuts_down net args served :
  match args with
  | Banner.SystemExit status =>
      Banner.script net args served = ([], Some status)
  | Banner.Namespace host port respond =>
      ∃ lines closing,
        Banner.script net args served =
          ((Banner.Info <$> [Banner.Title; Banner.ListeningOn port;
                            Banner.AddressesHeading] ++ lines)
           ++ [closing; Banner.ShutDown], None)
        ∧ (closing = Banner.Interrupted
           ∨ (closing = Banner.Error served
              ∧ Banner.is_Exception served = true
              ∧ ∃ middle, lines = middle ++ [Banner.PressCtrlC; Banner.Rule]))
  end.
Proof.
  destruct args as [host port respond|status]; [|done].
  unfold Banner.script, Banner.main, Banner.print_server_info.
  destruct (Banner.network_info net port) as [lines [e|]].
  - destruct (Banner.is_Exception e) eqn:He.
    + exists (lines ++ [Banner.NetworkError e; Banner.PressCtrlC; Banner.Rule]).
      destruct served; eexists; (split; [done|]);
        [right | right | by left];
        (split; [done|]); (split; [done|]);
        exists (lines ++ [Banner.NetworkError e]);
        by rewrite <- app_assoc.
    + destruct e; try done. exists lines, Banner.Interrupted.
      split; [done | by left].
  - exists (lines ++ [Banner.PressCtrlC; Banner.Rule]).
    destruct served; eexists; (split; [done|]);
      [right | right | by left];
      (split; [done|]); (split; [done|]); by exists lines.
Qed.

(** * The further properties at concrete inputs *)

Lemma extract_gps_not_a_dict_witness :
  extract_gps Sample.print_error (JStr "open") initial
  = (Raise TypeError, initial)
  ∧ extract_gps Sample.print_error (JStr "hello") initial
    = (Return (), initial)
  ∧ extract_gps Sample.print_error (JInt 5) initial
    = (Raise TypeError, initial).
Proof.
  split; [|split].
  - apply (extract_gps_not_a_dict Sample.print_error (JStr "open") initial).
    intros fields H. discriminate H.
  - apply (extract_gps_not_a_dict Sample.print_error (JStr "hello") initial).
    intros fields H. discriminate H.
  - apply (extract_gps_not_a_dict Sample.print_error (JInt 5) initial).
    intros fields H. discriminate H.
Defined.

Lemma extract_gps_msg_not_a_dict_witness :
  extract_gps Sample.print_error
    (JObj [("op", JStr "publish");
           ("msg", JArr [JStr "latitude"; JStr "longitude"])]) initial
  = (Raise TypeError,
     emit [Print ExtractedHeader; Print (Topic (JStr "N/A"))] initial).
Proof.
  apply (extract_gps_msg_not_a_dict Sample.print_error
           [("op", JStr "publish");
            ("msg", JArr [JStr "latitude"; JStr "longitude"])]
           (JStr "publish") (JArr [JStr "latitude"; JStr "longitude"])
           initial); try reflexivity.
  intros inner H. discriminate H.
Defined.

Lemma extract_gps_only_telemetry_witness :
  ∃ fields op msg,
    Sample.gps_data = JObj fields
    ∧ Py.lookup "op" fields = Some op
    ∧ Py.eq_str op "publish" = true
    ∧ Py.lookup "msg" fields = Some (JObj msg)
    ∧ Py.has_key "latitude" msg = true
    ∧ Py.has_key "longitude" msg = true.
Proof.
  apply (extract_gps_only_telemetry Sample.print_error Sample.gps_data initial
           (extract_gps Sample.print_error Sample.gps_data initial).2).
  - reflexivity.
  - intros H. apply (f_equal effects) in H. vm_compute in H. discriminate H.
Defined.

Lemma extract_gps_skips_witness :
  extract_gps Sample.print_error
    (JObj [("op", JStr "subscribe"); ("msg", JInt 5)]) initial
  = (Return (), initial).
Proof.
  apply (extract_gps_skips Sample.print_error
           [("op", JStr "subscribe"); ("msg", JInt 5)] initial).
  right. left. exists (JStr "subscribe"). split; reflexivity.
Defined.

Lemma step_leaves_others_witness :
  handlers (Sample.after false
              [Connect 1 Sample.robot; Connect 2 Sample.rover;
               Receive 1 (Text Sample.scalar_text)]) !! 2
  = handlers (Sample.after false
                [Connect 1 Sample.robot; Connect 2 Sample.rover]) !! 2.
Proof.
  apply (step_leaves_others Sample.loads Sample.clock false
           Sample.dumpable Sample.print_error
           (Receive 1 (Text Sample.scalar_text))
           (Sample.after false [Connect 1 Sample.robot; Connect 2 Sample.rover])
           (Sample.after false
              [Connect 1 Sample.robot; Connect 2 Sample.rover;
               Receive 1 (Text Sample.scalar_text)]) 2).
  - vm_compute. reflexivity.
  - simpl. lia.
Defined.

Lemma registry_is_running_handlers_witness :
  size (connected_clients (Sample.after true Sample.busy))
  = size (handlers (Sample.after true Sample.busy)).
Proof.
  apply (registry_is_running_handlers Sample.loads Sample.clock true
           Sample.dumpable Sample.print_error
           Sample.busy (Sample.after true Sample.busy)).
  vm_compute. reflexivity.
Defined.

Lemma same_label_iff_same_size_witness :
  client_id {| client_id := "Client-1"; at_await := Reading |}
  = client_id {| client_id := "Client-1"; at_await := Reading |}
  ↔ size (connected_clients initial)
    = size (connected_clients
              (Sample.after false [Connect 1 Sample.robot; Exhausted 1])).
Proof.
  eapply (same_label_iff_same_size Sample.loads Sample.clock false
            Sample.dumpable Sample.print_error
            7 8 Sample.robot Sample.rover initial
            (Sample.after false [Connect 1 Sample.robot; Exhausted 1]));
    vm_compute; reflexivity.
Defined.

Lemma leave_contains_exceptions_witness :
  (leave Sample.clock 7 "Client-1" (Raise TypeError)
     (Sample.after false [Connect 7 Sample.robot])).1 = Return ()
  ∧ 7 ∉ connected_clients
          (leave Sample.clock 7 "Client-1" (Raise TypeError)
             (Sample.after false [Connect 7 Sample.robot])).2.
Proof.
  apply (leave_contains_exceptions Sample.clock 7 "Client-1" (Raise TypeError)
           (Sample.after false [Connect 7 Sample.robot])).
  vm_compute. set_solver.
Defined.

Lemma exit_reports_remaining_witness :
  last (effects (Sample.after false
                   [Connect 1 Sample.robot; Connect 2 Sample.rover;
                    Receive 1 (Text Sample.scalar_text)]))
  = Some (Print (Disconnected "Client-1" 1)).
Proof.
  apply (exit_reports_remaining Sample.loads Sample.clock false
           Sample.dumpable Sample.print_error
           [Connect 1 Sample.robot; Connect 2 Sample.rover]
           (Receive 1 (Text Sample.scalar_text))
           (Sample.after false [Connect 1 Sample.robot; Connect 2 Sample.rover])
           (Sample.after false
              [Connect 1 Sample.robot; Connect 2 Sample.rover;
               Receive 1 (Text Sample.scalar_text)])
           1 {| client_id := "Client-1"; at_await := Reading |});
    vm_compute; reflexivity.
Defined.

Lemma acknowledged_ids_increase_witness :
  StronglySorted Z.lt (ids_sent (effects (Sample.after true Sample.busy)))
  ∧ length (ids_sent (effects (Sample.after true Sample.busy))) ≤ 3.
Proof.
  destruct (acknowledged_ids_increase Sample.loads Sample.clock true
              Sample.dumpable Sample.print_error
              Sample.busy (Sample.after true Sample.busy))
    as (Hsorted & _ & Hlength); [vm_compute; reflexivity|].
  split; [exact Hsorted | exact Hlength].
Defined.

Lemma silent_without_respond_witness :
  acknowledgments 7 (effects (Sample.after false
                                [Connect 7 Sample.robot;
                                 Receive 7 (Text Sample.gps_text)])) = [].
Proof.
  destruct (silent_without_respond Sample.loads Sample.clock
              Sample.dumpable Sample.print_error
              [Connect 7 Sample.robot; Receive 7 (Text Sample.gps_text)]
              (Sample.after false
                 [Connect 7 Sample.robot; Receive 7 (Text Sample.gps_text)]))
    as (_ & Hsilent & _); [vm_compute; reflexivity|].
  exact (Hsilent 7).
Defined.

Lemma acknowledged_once_witness :
  ∃ s', step Sample.loads Sample.clock true Sample.dumpable Sample.print_error
          (Receive 7 (Text Sample.gps_text))
          (Sample.after true [Connect 7 Sample.robot]) = Some s'
        ∧ message_count s' = 1
        ∧ handlers s' !! 7
          = Some {| client_id := "Client-1"; at_await := Sending |}.
Proof.
  destruct (acknowledged_once Sample.loads Sample.clock
              Sample.dumpable Sample.print_error 7
              (Text Sample.gps_text)
              (Sample.after true [Connect 7 Sample.robot])
              {| client_id := "Client-1"; at_await := Reading |})
    as (s' & fx & t & Hstep & Hcount & _ & _ & _ & Hh);
    [vm_compute; reflexivity | vm_compute; reflexivity |].
  exists s'. split; [exact Hstep|]. split; [exact Hcount | exact Hh].
Defined.

Lemma raw_text_shown_witness :
  ∃ s', step Sample.loads Sample.clock false Sample.dumpable Sample.print_error
          (Receive 7 (Text "hello world"))
          (Sample.after false [Connect 7 Sample.robot]) = Some s'
        ∧ message_count s' = 1
        ∧ is_Some (handlers s' !! 7).
Proof.
  destruct (raw_text_shown Sample.loads Sample.clock false
              Sample.dumpable Sample.print_error 7 "hello world"
              (Sample.after false [Connect 7 Sample.robot])
              {| client_id := "Client-1"; at_await := Reading |})
    as (s' & Hstep & Hcount & Hh & _);
    [vm_compute; reflexivity | reflexivity |].
  exists s'. split; [exact Hstep|]. split; [exact Hcount | exact Hh].
Defined.

Lemma decoder_error_ends_handler_witness :
  ∃ s', step Sample.loads Sample.clock false Sample.dumpable Sample.print_error
          (Receive 7 (Binary Sample.stray))
          (Sample.after false [Connect 7 Sample.robot]) = Some s'
        ∧ handlers s' !! 7 = None
        ∧ message_count s' = 1.
Proof.
  destruct (decoder_error_ends_handler Sample.loads Sample.clock false
              Sample.dumpable Sample.print_error
              [Connect 7 Sample.robot] 7 (Binary Sample.stray)
              UnicodeDecodeError
              (Sample.after false [Connect 7 Sample.robot])
              {| client_id := "Client-1"; at_await := Reading |})
    as (s' & Hstep & Hh & _ & Hcount);
    [vm_compute; reflexivity | vm_compute; reflexivity | reflexivity
    | discriminate |].
  exists s'. split; [exact Hstep|]. split; [exact Hh | exact Hcount].
Defined.

Lemma banner_lists_resolved_addresses_witness :
  (Banner.print_server_info Banner.office "0.0.0.0" 9090).2 = None
  ∧ "10.0.0.5"
    ∈ Banner.listed (Banner.print_server_info Banner.office "0.0.0.0" 9090).1.
Proof.
  destruct (banner_lists_resolved_addresses Banner.office "0.0.0.0" 9090
              "robot-lab"
              ["192.168.1.20"; "127.0.0.1"; "::1"; "10.0.0.5";
               "192.168.1.20"; "fe80::1"] eq_refl eq_refl)
    as (Hreturns & Hlisted & _).
  - exists "10.0.0.5". split; [set_solver | reflexivity].
  - split; [exact Hreturns|]. apply Hlisted. split; [set_solver | reflexivity].
Defined.

Lemma banner_falls_back_on_probe_witness :
  Banner.print_server_info Banner.laptop "0.0.0.0" 9090 =
    ([Banner.Title; Banner.ListeningOn 9090; Banner.AddressesHeading;
      Banner.Hostname "laptop"; Banner.Url "172.16.0.9" 9090;
      Banner.PressCtrlC; Banner.Rule], None).
Proof.
  apply (banner_falls_back_on_probe Banner.laptop "0.0.0.0" 9090 "laptop");
    reflexivity.
Defined.

(** The banner of the host with two interfaces: the loopback and the
    IPv6 addresses are left out, the address listed twice comes once,
    and the addresses come in the order of their text. *)
Example office_banner :
  Banner.print_server_info Banner.office "0.0.0.0" 9090 =
    ([Banner.Title; Banner.ListeningOn 9090; Banner.AddressesHeading;
      Banner.Hostname "robot-lab";
      Banner.Url "10.0.0.5" 9090; Banner.Url "192.168.1.20" 9090;
      Banner.PressCtrlC; Banner.Rule], None).
Proof. vm_compute. reflexivity. Qed.
